(** * FarmaCompara front end: search handler and filter/sort projection

    Shallow embedding of the two [App] components of the repository,
    [src/App.tsx] (module [AppTsx]) and the second copy of the component
    (module [Part000]), together with the part of the JavaScript runtime
    they call: strings of UTF-16 code units, [parseFloat], the two regular
    expressions, [Array.prototype.filter] and [Array.prototype.sort].

    A number is [NaN], an infinity or a finite value held as a rational;
    [parseFloat] rounds the decimal literal it reads to the nearest binary64
    value, ties to even.  The two zeros are not told apart. *)

From Stdlib Require Import QArith Qpower Sorting.Sorted Permutation.
From stdpp Require Import base option list strings gmap.

Set Default Proof Using "Type".
Open Scope N_scope.

(** ** Strings *)

(** A JavaScript string is a sequence of UTF-16 code units. *)
Definition char := N.
Definition jsstring := list char.

(** Code units of a string literal of the source, read as UTF-8 (code
    points of the Basic Multilingual Plane, which is all the literals of the
    two components need below). *)
Fixpoint utf8_units (bs : list N) : jsstring :=
  match bs with
  | [] => []
  | b :: rest =>
      if b <? 128 then b :: utf8_units rest
      else if b <? 224 then
        match rest with
        | b2 :: rest' =>
            (N.lor (N.shiftl (N.land b 31) 6) (N.land b2 63)) :: utf8_units rest'
        | [] => [b]
        end
      else
        match rest with
        | b2 :: b3 :: rest' =>
            (N.lor (N.shiftl (N.land b 15) 12)
               (N.lor (N.shiftl (N.land b2 63) 6) (N.land b3 63)))
              :: utf8_units rest'
        | _ => b :: rest
        end
  end.

Definition js (s : string) : jsstring :=
  utf8_units (map Ascii.N_of_ascii (String.list_ascii_of_string s)).

Arguments js : simpl never.

Fixpoint str_eqb (a b : jsstring) : bool :=
  match a, b with
  | [], [] => true
  | x :: a', y :: b' => (x =? y) && str_eqb a' b'
  | _, _ => false
  end.

(** Truthiness of a string: the empty string is the only falsy one. *)
Definition str_truthy (s : jsstring) : bool :=
  match s with [] => false | _ => true end.

(** [WhiteSpace] and [LineTerminator] of ECMA-262: the class [\s] of a
    regular expression, and what [trim] and [parseFloat] strip. *)
Definition is_space (c : char) : bool :=
  ((9 <=? c) && (c <=? 13)) || (c =? 32) || (c =? 160) || (c =? 5760)
  || ((8192 <=? c) && (c <=? 8202)) || (c =? 8232) || (c =? 8233)
  || (c =? 8239) || (c =? 8287) || (c =? 12288) || (c =? 65279).

(** The class [\d]: the ten ASCII digits. *)
Definition is_digit (c : char) : bool := (48 <=? c) && (c <=? 57).

Fixpoint skip_spaces (s : jsstring) : jsstring :=
  match s with
  | c :: s' => if is_space c then skip_spaces s' else s
  | [] => []
  end.

(** [String.prototype.trim]. *)
Definition String_trim (s : jsstring) : jsstring :=
  rev (skip_spaces (rev (skip_spaces s))).

Fixpoint starts_with (p s : jsstring) : bool :=
  match p, s with
  | [], _ => true
  | x :: p', y :: s' => (x =? y) && starts_with p' s'
  | _ :: _, [] => false
  end.

(** [String.prototype.includes]. *)
Fixpoint String_includes (s sub : jsstring) : bool :=
  starts_with sub s ||
  match s with
  | [] => false
  | _ :: s' => String_includes s' sub
  end.

(** Longest run of digits at the head of a string, and the rest. *)
Fixpoint span_digits (s : jsstring) : jsstring * jsstring :=
  match s with
  | c :: s' =>
      if is_digit c then let '(ds, r) := span_digits s' in (c :: ds, r)
      else ([], s)
  | [] => ([], [])
  end.

(** ** Numbers *)

Inductive number :=
| NaN
| NegInf
| Fin (q : Q)
| PosInf.

Definition digit_val (c : char) : Z := Z.of_N (c - 48).

(** Value of a run of decimal digits. *)
Definition digits_val (ds : jsstring) : Z :=
  fold_left (fun acc c => (10 * acc + digit_val c)%Z) ds 0%Z.

(** [m * 10^e], in lowest terms. *)
Definition decimal (m e : Z) : Q := Qred (inject_Z m * Qpower 10 e).

Definition num_neg (x : number) : number :=
  match x with
  | NaN => NaN
  | NegInf => PosInf
  | PosInf => NegInf
  | Fin q => Fin (Qred (- q))
  end.

(** The Number value of a positive rational [n / d]: the nearest value
    [m * 2^k] of binary64, with [m < 2^53] and [k >= -1074], ties going to
    the even [m]; from [2^1024 - 2^970] on it is [Infinity].  [k0] is the
    binary exponent of [n / d], that is [2^k0 <= n / d < 2^(k0 + 1)]. *)
Definition to_double_pos (n d : positive) : number :=
  let e := (Z.log2 (Zpos n) - Z.log2 (Zpos d))%Z in
  let k0 :=
    if (Zpos d * 2 ^ Z.max e 0 <=? Zpos n * 2 ^ Z.max (- e) 0)%Z
    then e else (e - 1)%Z in
  let k := Z.max (k0 - 52) (-1074) in
  let num := (Zpos n * 2 ^ Z.max (- k) 0)%Z in
  let den := (Zpos d * 2 ^ Z.max k 0)%Z in
  let m := (num / den)%Z in
  let r := (num mod den)%Z in
  let m' :=
    if (den <? 2 * r)%Z || ((2 * r =? den)%Z && Z.odd m)
    then (m + 1)%Z else m in
  if (971 <? k)%Z || ((k =? 971)%Z && (m' =? 2 ^ 53)%Z) then PosInf
  else Fin (Qred (inject_Z m' * Qpower 2 k)).

(** The Number value of a rational. *)
Definition to_double (q : Q) : number :=
  match Qnum q with
  | Z0 => Fin 0
  | Zpos n => to_double_pos n (Qden q)
  | Zneg n => num_neg (to_double_pos n (Qden q))
  end.

(** The exponent part [e|E [+|-] digits] of a decimal literal; a part that
    is not complete is not part of the literal. *)
Definition exponent_part (s : jsstring) : Z :=
  match s with
  | c :: s' =>
      if (c =? 101) || (c =? 69) then
        match s' with
        | sg :: s'' =>
            if sg =? 43 then
              match span_digits s'' with
              | ([], _) => 0%Z
              | (ds, _) => digits_val ds
              end
            else if sg =? 45 then
              match span_digits s'' with
              | ([], _) => 0%Z
              | (ds, _) => (- digits_val ds)%Z
              end
            else
              match span_digits s' with
              | ([], _) => 0%Z
              | (ds, _) => digits_val ds
              end
        | [] => 0%Z
        end
      else 0%Z
  | [] => 0%Z
  end.

Definition head_is (c : char) (s : jsstring) : bool :=
  match s with
  | x :: _ => x =? c
  | [] => false
  end.

(** [StrUnsignedDecimalLiteral]: the longest prefix of the string that is
    [Infinity], [digits . digits? exp?], [. digits exp?] or [digits exp?],
    and the Number value of what it denotes. *)
Definition unsigned_literal (s : jsstring) : number :=
  if starts_with (js "Infinity") s then PosInf
  else
    let '(ip, r) := span_digits s in
    if head_is 46 r then
      let '(fp, r2) := span_digits (tail r) in
      match ip, fp with
      | [], [] => NaN
      | _, _ =>
          to_double (decimal (digits_val (ip ++ fp))
                       (exponent_part r2 - Z.of_nat (length fp)))
      end
    else
      match ip with
      | [] => NaN
      | _ => to_double (decimal (digits_val ip) (exponent_part r))
      end.

(** The global function [parseFloat]: leading white space is skipped, then
    the longest prefix that is a [StrDecimalLiteral] is read; [NaN] when
    there is none. *)
Definition parseFloat (s : jsstring) : number :=
  let s := skip_spaces s in
  if head_is 43 s then unsigned_literal (tail s)
  else if head_is 45 s then num_neg (unsigned_literal (tail s))
  else unsigned_literal s.

(** Truthiness of a number and the idiom [x || 0]: [NaN] and zero are
    falsy, everything else is kept. *)
Definition num_truthy (x : number) : bool :=
  match x with
  | NaN => false
  | Fin q => negb (Qeq_bool q 0)
  | _ => true
  end.

Definition num_or_zero (x : number) : number :=
  if num_truthy x then x else Fin 0.

(** Subtraction of numbers, [a - b].  The difference of two finite
    numbers is kept as it is: rounding the difference of two binary64
    values moves it to no other side of zero, and its sign is all that
    [sort] reads of it. *)
Definition num_sub (a b : number) : number :=
  match a, b with
  | NaN, _ | _, NaN => NaN
  | PosInf, PosInf => NaN
  | NegInf, NegInf => NaN
  | PosInf, _ => PosInf
  | NegInf, _ => NegInf
  | Fin _, PosInf => NegInf
  | Fin _, NegInf => PosInf
  | Fin x, Fin y => Fin (x - y)
  end.

(** The relational operator [a > b]; any comparison with [NaN] is false. *)
Definition num_gtb (a b : number) : bool :=
  match a, b with
  | NaN, _ | _, NaN => false
  | PosInf, PosInf => false
  | PosInf, _ => true
  | NegInf, _ => false
  | Fin _, PosInf => false
  | Fin _, NegInf => true
  | Fin x, Fin y => negb (Qle_bool x y)
  end.

(** ** Regular expressions

    The fragment the two components use: literals, classes, sequence, the
    greedy [?], and the greedy [*] and [+] of a class.  Matching is the
    backtracking of ECMA-262 written with a continuation: the first
    alternative that lets the rest of the pattern succeed wins. *)
Inductive regex :=
| RChar (c : char)
| RClass (p : char -> bool)
| RSeq (r1 r2 : regex)
| ROpt (r : regex)
| RStar (p : char -> bool)
| RPlus (p : char -> bool).

Fixpoint star_loop {A} (p : char -> bool) (k : jsstring -> option A)
    (s : jsstring) : option A :=
  match s with
  | c :: s' =>
      if p c then
        match star_loop p k s' with
        | Some a => Some a
        | None => k s
        end
      else k s
  | [] => k []
  end.

Fixpoint rx_match {A} (r : regex) (s : jsstring)
    (k : jsstring -> option A) : option A :=
  match r with
  | RChar c =>
      match s with
      | x :: s' => if x =? c then k s' else None
      | [] => None
      end
  | RClass p =>
      match s with
      | x :: s' => if p x then k s' else None
      | [] => None
      end
  | RSeq r1 r2 => rx_match r1 s (fun s1 => rx_match r2 s1 k)
  | ROpt r1 =>
      match rx_match r1 s k with
      | Some a => Some a
      | None => k s
      end
  | RStar p => star_loop p k s
  | RPlus p =>
      match s with
      | x :: s' => if p x then star_loop p k s' else None
      | [] => None
      end
  end.

(** The leftmost match: what precedes it (kept reversed while scanning),
    the matched text and what follows. *)
Fixpoint rx_exec (r : regex) (pre s : jsstring)
    : option (jsstring * jsstring * jsstring) :=
  match rx_match r s Some with
  | Some rest => Some (rev pre, take (length s - length rest)%nat s, rest)
  | None =>
      match s with
      | [] => None
      | c :: s' => rx_exec r (c :: pre) s'
      end
  end.

(** [String.prototype.replace] with a regular expression without the [g]
    flag: the leftmost match is replaced, a string without a match is
    returned as it is. *)
Definition String_replace (s : jsstring) (r : regex) (by_ : jsstring)
    : jsstring :=
  match rx_exec r [] s with
  | Some (pre, _, post) => pre ++ by_ ++ post
  | None => s
  end.

(** [String.prototype.match] without the [g] flag: element [0] of the
    result, or [None] for [null]. *)
Definition String_match (s : jsstring) (r : regex) : option jsstring :=
  match rx_exec r [] s with
  | Some (_, m, _) => Some m
  | None => None
  end.

(** [/S\/\s*/] *)
Definition re_soles : regex :=
  RSeq (RChar 83) (RSeq (RChar 47) (RStar is_space)).

(** [/\d+(\.\d+)?/] *)
Definition re_number : regex :=
  RSeq (RPlus is_digit) (ROpt (RSeq (RChar 46) (RPlus is_digit))).

(** ** Arrays *)

(** The sign [SortCompare] reads off the number a comparator returns: [NaN]
    counts as [+0]. *)
Definition sort_compare (v : number) : comparison :=
  match v with
  | NaN => Eq
  | NegInf => Lt
  | PosInf => Gt
  | Fin q => (q ?= 0)%Q
  end.

(** [Array.prototype.sort] is required to be stable, and for a consistent
    comparator stability fixes its result (see [stable_sort_unique]); it is
    modelled by insertion from the right. *)
Fixpoint sort_insert {A} (comparefn : A -> A -> number) (x : A)
    (l : list A) : list A :=
  match l with
  | [] => [x]
  | y :: l' =>
      match sort_compare (comparefn x y) with
      | Gt => y :: sort_insert comparefn x l'
      | _ => x :: l
      end
  end.

Definition Array_sort {A} (comparefn : A -> A -> number) (l : list A)
    : list A :=
  foldr (sort_insert comparefn) [] l.

(** [Array.prototype.filter]. *)
Definition Array_filter {A} (callback : A -> bool) (l : list A) : list A :=
  List.filter callback l.

(** *** Arrays as objects

    [filter] builds a new array and [sort] sorts the array it is called on
    in place and returns that same array.  Where this matters the arrays
    live in a store, and a variable holds a reference. *)
Module ArrayStore.

Definition ref := nat.

Section Store.
(** [V]: the variables in scope; [A]: the elements of the arrays. *)
Context {V A : Type}.

Definition world : Type := V * gmap nat (list A).

(** A computation reads and updates the world, or throws. *)
Definition M (B : Type) : Type := world -> option (B * world).

Definition ret {B} (b : B) : M B := fun w => Some (b, w).

Definition bind {B C} (m : M B) (k : B -> M C) : M C :=
  fun w =>
    match m w with
    | Some (b, w') => k b w'
    | None => None
    end.

Definition throw {B} : M B := fun _ => None.

Definition var {B} (x : V -> B) : M B := fun w => Some (x w.1, w).

Definition load (r : ref) : M (list A) :=
  fun w =>
    match w.2 !! r with
    | Some l => Some (l, w)
    | None => None
    end.

Definition store (r : ref) (l : list A) : M unit :=
  fun w => Some (tt, (w.1, <[r := l]> (w.2))).

Definition alloc (l : list A) : M ref :=
  fun w =>
    let r := fresh (dom w.2) in
    Some (r, (w.1, <[r := l]> (w.2))).

(** [a.filter(callback)] *)
Definition filter_m (callback : A -> bool) (a : ref) : M ref :=
  bind (load a) (fun l => alloc (Array_filter callback l)).

(** [a.sort(comparefn)] *)
Definition sort_m (comparefn : A -> A -> number) (a : ref) : M ref :=
  bind (load a) (fun l =>
  bind (store a (Array_sort comparefn l)) (fun _ =>
  ret a)).
End Store.

Arguments world : clear implicits.
Arguments M : clear implicits.

End ArrayStore.

Notation "'let*' x := m 'in' k" := (ArrayStore.bind m (fun x => k))
  (at level 10, x name, m at level 100, k at level 200, only parsing).

(** ** [encodeURIComponent] and number-to-string *)

Definition uri_unreserved (c : char) : bool :=
  ((48 <=? c) && (c <=? 57)) || ((65 <=? c) && (c <=? 90))
  || ((97 <=? c) && (c <=? 122))
  || (c =? 45) || (c =? 95) || (c =? 46) || (c =? 33) || (c =? 126)
  || (c =? 42) || (c =? 39) || (c =? 40) || (c =? 41).

Definition hex_digit (n : N) : char := if n <? 10 then 48 + n else 55 + n.

Definition percent (b : N) : jsstring :=
  [37; hex_digit (b / 16); hex_digit (b mod 16)].

Definition utf8_bytes (cp : N) : list N :=
  if cp <? 128 then [cp]
  else if cp <? 2048 then
    [N.lor 192 (N.shiftr cp 6); N.lor 128 (N.land cp 63)]
  else if cp <? 65536 then
    [N.lor 224 (N.shiftr cp 12); N.lor 128 (N.land (N.shiftr cp 6) 63);
     N.lor 128 (N.land cp 63)]
  else
    [N.lor 240 (N.shiftr cp 18); N.lor 128 (N.land (N.shiftr cp 12) 63);
     N.lor 128 (N.land (N.shiftr cp 6) 63); N.lor 128 (N.land cp 63)].

Definition is_high_surrogate (c : char) : bool := (55296 <=? c) && (c <=? 56319).
Definition is_low_surrogate (c : char) : bool := (56320 <=? c) && (c <=? 57343).

(** [None] stands for the [URIError] thrown on a lone surrogate. *)
Fixpoint encodeURIComponent (s : jsstring) : option jsstring :=
  match s with
  | [] => Some []
  | c :: s' =>
      if uri_unreserved c then (c ::.) <$> encodeURIComponent s'
      else if is_low_surrogate c then None
      else if is_high_surrogate c then
        match s' with
        | d :: s'' =>
            if is_low_surrogate d then
              let cp := (c - 55296) * 1024 + (d - 56320) + 65536 in
              (app (concat (map percent (utf8_bytes cp))))
                <$> encodeURIComponent s''
            else None
        | [] => None
        end
      else (app (concat (map percent (utf8_bytes c)))) <$> encodeURIComponent s'
  end.

Fixpoint uint_units (d : Decimal.uint) : jsstring :=
  match d with
  | Decimal.Nil => []
  | Decimal.D0 d => 48 :: uint_units d
  | Decimal.D1 d => 49 :: uint_units d
  | Decimal.D2 d => 50 :: uint_units d
  | Decimal.D3 d => 51 :: uint_units d
  | Decimal.D4 d => 52 :: uint_units d
  | Decimal.D5 d => 53 :: uint_units d
  | Decimal.D6 d => 54 :: uint_units d
  | Decimal.D7 d => 55 :: uint_units d
  | Decimal.D8 d => 56 :: uint_units d
  | Decimal.D9 d => 57 :: uint_units d
  end.

(** A non-negative integer interpolated in a template literal. *)
Definition N_to_string (n : N) : jsstring := uint_units (N.to_uint n).

(** ** Data of the components *)

(** [interface Producto]; its field [Producto] is [Producto_] here, a
    record and its field cannot share a name. *)
Record Producto := mkProducto {
  Producto_ : jsstring;
  Precio_Oferta : jsstring;
  Precio_Regular : jsstring;
  Imagen_URL : jsstring;
  Enlace : jsstring;
  Farmacia : jsstring
}.

(** What the state variable [productos] can hold at run time: the
    components store [response.data.data], which is [undefined] when the
    body has no field [data], and any value of JSON otherwise.  The elements
    of an array are taken to be products, as [interface Producto] says.
    [T] is [list Producto] where arrays are values and a reference where
    they live in a store. *)
Inductive jsvalue (T : Type) :=
| Undefined
| Null
| Array (a : T)
| JBoolean (b : bool)
| JNumber (x : number)
| JString (s : jsstring)
| JObject.

Arguments Undefined {T}.
Arguments Null {T}.
Arguments Array {T} a.
Arguments JBoolean {T} b.
Arguments JNumber {T} x.
Arguments JString {T} s.
Arguments JObject {T}.

Abbreviation jsarray := (jsvalue (list Producto)).

(** Truthiness of a value. *)
Definition truthy {T} (v : jsvalue T) : bool :=
  match v with
  | Undefined | Null => false
  | Array _ | JObject => true
  | JBoolean b => b
  | JNumber x => num_truthy x
  | JString s => str_truthy s
  end.

(** [v || []] *)
Definition array_or_empty (v : jsarray) : jsarray :=
  if truthy v then v else Array [].

(** The state variables of [App]; [error] is [None] for [null]. *)
Record AppState_ (T : Type) := mkAppState {
  keyword : jsstring;
  productos : jsvalue T;
  isLoading : bool;
  error : option jsstring;
  nameFilter : jsstring;
  pharmacyFilter : jsstring;
  priceFilter : Q;
  offersFilter : bool
}.

Arguments mkAppState {T}.
Arguments keyword {T}.
Arguments productos {T}.
Arguments isLoading {T}.
Arguments error {T}.
Arguments nameFilter {T}.
Arguments pharmacyFilter {T}.
Arguments priceFilter {T}.
Arguments offersFilter {T}.

Abbreviation AppState := (AppState_ (list Producto)).

Definition setProductos {T} (v : jsvalue T) (st : AppState_ T) : AppState_ T :=
  mkAppState (keyword st) v (isLoading st) (error st) (nameFilter st)
    (pharmacyFilter st) (priceFilter st) (offersFilter st).

Definition setIsLoading {T} (b : bool) (st : AppState_ T) : AppState_ T :=
  mkAppState (keyword st) (productos st) b (error st) (nameFilter st)
    (pharmacyFilter st) (priceFilter st) (offersFilter st).

Definition setError {T} (e : option jsstring) (st : AppState_ T) : AppState_ T :=
  mkAppState (keyword st) (productos st) (isLoading st) e (nameFilter st)
    (pharmacyFilter st) (priceFilter st) (offersFilter st).

Definition setKeyword {T} (s : jsstring) (st : AppState_ T) : AppState_ T :=
  mkAppState s (productos st) (isLoading st) (error st) (nameFilter st)
    (pharmacyFilter st) (priceFilter st) (offersFilter st).

Definition setNameFilter {T} (s : jsstring) (st : AppState_ T) : AppState_ T :=
  mkAppState (keyword st) (productos st) (isLoading st) (error st) s
    (pharmacyFilter st) (priceFilter st) (offersFilter st).

Definition setPharmacyFilter {T} (s : jsstring) (st : AppState_ T)
    : AppState_ T :=
  mkAppState (keyword st) (productos st) (isLoading st) (error st)
    (nameFilter st) s (priceFilter st) (offersFilter st).

Definition setPriceFilter {T} (q : Q) (st : AppState_ T) : AppState_ T :=
  mkAppState (keyword st) (productos st) (isLoading st) (error st)
    (nameFilter st) (pharmacyFilter st) q (offersFilter st).

Definition setOffersFilter {T} (b : bool) (st : AppState_ T) : AppState_ T :=
  mkAppState (keyword st) (productos st) (isLoading st) (error st)
    (nameFilter st) (pharmacyFilter st) (priceFilter st) b.

(** [response.data], the body of a response, as far as the handlers read
    it: [null] (a body that is the JSON text [null]) or [undefined], on
    which reading the property [data] throws a [TypeError]; or any other
    value, with what its property [data] holds ([undefined] for a body
    that is not an object or has no such field). *)
Inductive ResponseData :=
| NullData
| Data (data : jsarray).

(** The response of the search endpoint: its status and its body. *)
Record Response := mkResponse {
  status : N;
  data : ResponseData
}.

(** What the [catch] clause reads of the value it caught: [err.code] and
    [err.response], each [None] when undefined. *)
Record Exn := mkExn {
  code : option jsstring;
  response : option Response
}.

(** How [await axios.get(...)] ends. *)
Inductive AxiosResult :=
| Fulfilled (resp : Response)
| Rejected (err : Exn).

(** The [URIError] of [encodeURIComponent] has neither field, nor has the
    [TypeError] of reading a property of [null]. *)
Definition URIError : Exn := mkExn None None.
Definition TypeError : Exn := mkExn None None.

Inductive Event :=
| EvAlert (msg : jsstring)
| EvGet (url : jsstring) (timeout : N)
| EvConsoleError.

(** An asynchronous handler runs up to its [await], where the state
    updates made so far are committed together and the rest waits for the
    request; or it returns before any [await]. *)
Inductive Task :=
| Return (st : AppState) (log : list Event)
| Await (st : AppState) (log : list Event)
    (k : AxiosResult -> AppState -> AppState * list Event).

(** The states and events of one submission whose request ends with
    [res], nothing else happening in between. *)
Definition run (t : Task) (res : AxiosResult) : AppState * list Event :=
  match t with
  | Return st log => (st, log)
  | Await st log k => let '(st', log') := k res st in (st', log ++ log')
  end.

(** The state shown while the request is pending, if there is one. *)
Definition pending (t : Task) : option AppState :=
  match t with
  | Return _ _ => None
  | Await st _ _ => Some st
  end.

Definition requests (log : list Event) : list Event :=
  List.filter (fun e => match e with EvGet _ _ => true | _ => false end) log.

Definition ECONNABORTED : jsstring := js "ECONNABORTED".

(** [err.code === 'ECONNABORTED'] *)
Definition code_is (err : Exn) (c : jsstring) : bool :=
  match code err with
  | Some c' => str_eqb c' c
  | None => false
  end.

(** ** [src/App.tsx] *)

Module AppTsx.

Definition API_URL : jsstring :=
  js "https://zona-medicamentos-scraper-back.onrender.com".

Definition alert_message : jsstring :=
  js "Por favor, ingresa un término de búsqueda.".

Definition timeout_message : jsstring :=
  js "La búsqueda tardó demasiado y fue cancelada. Intenta de nuevo.".

Definition generic_message : jsstring :=
  js "Error al cargar los datos. Revisa la consola.".

(** The [catch] clause of [handleSubmit]. *)
Definition catch_clause (err : Exn) (st : AppState)
    : AppState * list Event :=
  let st :=
    if code_is err ECONNABORTED then setError (Some timeout_message) st
    else setError (Some generic_message) st in
  (setIsLoading false st, [EvConsoleError]).

Definition handleSubmit (st : AppState) : Task :=
  if negb (str_truthy (keyword st)) then
    Return st [EvAlert alert_message]
  else
    let st := setIsLoading true st in
    let st := setProductos (Array []) st in
    let st := setError None st in
    match encodeURIComponent (keyword st) with
    | None => let '(st, log) := catch_clause URIError st in Return st log
    | Some encoded =>
        let urlCompleta :=
          API_URL ++ js "/buscar_productos?keyword=" ++ encoded in
        Await st [EvGet urlCompleta 300000]
          (fun res st =>
             match res with
             | Fulfilled response =>
                 match data response with
                 | NullData => catch_clause TypeError st
                 | Data response_data_data =>
                     let st := setProductos response_data_data st in
                     (setIsLoading false st, [])
                 end
             | Rejected err => catch_clause err st
             end)
    end.

(** [parseFloat(product.Precio_Oferta.replace(/S\/\s*/, '')) || 0] *)
Definition price (product : Producto) : number :=
  num_or_zero
    (parseFloat (String_replace (Precio_Oferta product) re_soles [])).

(** The comparator given to [sort]. *)
Definition sort_callback (a b : Producto) : number :=
  let priceA :=
    num_or_zero (parseFloat (String_replace (Precio_Oferta a) re_soles [])) in
  let priceB :=
    num_or_zero (parseFloat (String_replace (Precio_Oferta b) re_soles [])) in
  num_sub priceA priceB.

Section Projector.
(** [String.prototype.toLowerCase], whose Unicode tables are not part
    of the repository. *)
Variable toLowerCase : jsstring -> jsstring.

(** The predicate given to [filter]. *)
Definition filter_callback {T} (st : AppState_ T) (product : Producto)
    : bool :=
  let price := price product in
  let hasOffer :=
    negb (str_eqb (Precio_Regular product) (js "No disponible")) in
  if str_truthy (nameFilter st)
     && negb (String_includes (toLowerCase (Producto_ product))
                (toLowerCase (nameFilter st)))
  then false
  else if str_truthy (pharmacyFilter st)
          && negb (str_eqb (Farmacia product) (pharmacyFilter st))
  then false
  else if num_gtb price (Fin (priceFilter st)) then false
  else if offersFilter st && negb hasOffer then false
  else true.

(** [None] is the [TypeError] of calling [filter] on a value that is not
    an array. *)
Definition getFilteredProducts (st : AppState) : option (list Producto) :=
  match productos st with
  | Array l =>
      Some (Array_sort sort_callback (Array_filter (filter_callback st) l))
  | _ => None
  end.

(** The same function with its arrays in a store: [productos] holds a
    reference, [filter] allocates and [sort] writes. *)
Definition getFilteredProducts_m
    : ArrayStore.M (AppState_ ArrayStore.ref) Producto ArrayStore.ref :=
  let* v := ArrayStore.var productos in
  match v with
  | Array a =>
      let* st := ArrayStore.var id in
      let* b := ArrayStore.filter_m (filter_callback st) a in
      ArrayStore.sort_m sort_callback b
  | _ => ArrayStore.throw
  end.
End Projector.

End AppTsx.

(** ** The second copy of the component *)

Module Part000.

Definition API_URL : jsstring :=
  js "https://zona-medicamentos-scraper-back-production.up.railway.app/".

Definition alert_message : jsstring :=
  js "Por favor, ingresa un término de búsqueda.".

Definition timeout_message : jsstring :=
  js "La búsqueda tardó demasiado y fue cancelada (Timeout). Intenta de nuevo.".

Definition server_message (status : N) : jsstring :=
  js "Error del servidor (" ++ N_to_string status
    ++ js "). Intenta de nuevo más tarde.".

Definition connect_message : jsstring :=
  js "No se pudo conectar al backend. El servicio puede estar inactivo o tardando mucho.".

(** The [catch] clause of [handleSubmit]. *)
Definition catch_clause (err : Exn) (st : AppState)
    : AppState * list Event :=
  let st :=
    if code_is err ECONNABORTED then setError (Some timeout_message) st
    else
      match response err with
      | Some r => setError (Some (server_message (status r))) st
      | None => setError (Some connect_message) st
      end in
  (setIsLoading false st, [EvConsoleError]).

Definition handleSubmit (st : AppState) : Task :=
  if negb (str_truthy (String_trim (keyword st))) then
    Return st [EvAlert alert_message]
  else
    let kw := keyword st in
    let st := setIsLoading true st in
    let st := setProductos (Array []) st in
    let st := setError None st in
    let searchKeyword :=
      if str_truthy (String_trim kw) then String_trim kw else js "jabon" in
    match encodeURIComponent searchKeyword with
    | None => let '(st, log) := catch_clause URIError st in Return st log
    | Some encoded =>
        let urlCompleta :=
          API_URL ++ js "/buscar_productos?keyword=" ++ encoded in
        Await st [EvGet urlCompleta 300000]
          (fun res st =>
             match res with
             | Fulfilled response =>
                 match data response with
                 | NullData => catch_clause TypeError st
                 | Data response_data_data =>
                     let st :=
                       setProductos (array_or_empty response_data_data) st in
                     (setIsLoading false st, [])
                 end
             | Rejected err => catch_clause err st
             end)
    end.

(** [priceMatch ? parseFloat(priceMatch[0]) : 0], with
    [priceMatch = product.Precio_Oferta.match(/\d+(\.\d+)?/)]. *)
Definition price (product : Producto) : number :=
  let priceMatch := String_match (Precio_Oferta product) re_number in
  match priceMatch with
  | Some m => parseFloat m
  | None => Fin 0
  end.

(** The comparator given to [sort]. *)
Definition sort_callback (a b : Producto) : number :=
  let priceA :=
    num_or_zero (parseFloat (String_replace (Precio_Oferta a) re_soles [])) in
  let priceB :=
    num_or_zero (parseFloat (String_replace (Precio_Oferta b) re_soles [])) in
  num_sub priceA priceB.

Section Projector.
Variable toLowerCase : jsstring -> jsstring.

(** The predicate given to [filter]. *)
Definition filter_callback {T} (st : AppState_ T) (product : Producto)
    : bool :=
  let price := price product in
  let hasOffer :=
    negb (str_eqb (Precio_Regular product) (js "No disponible")) in
  if str_truthy (nameFilter st)
     && negb (String_includes (toLowerCase (Producto_ product))
                (toLowerCase (nameFilter st)))
  then false
  else if str_truthy (pharmacyFilter st)
          && negb (str_eqb (Farmacia product) (pharmacyFilter st))
  then false
  else if num_gtb price (Fin (priceFilter st)) then false
  else if offersFilter st && negb hasOffer then false
  else true.

Definition getFilteredProducts (st : AppState) : option (list Producto) :=
  match productos st with
  | Array l =>
      Some (Array_sort sort_callback (Array_filter (filter_callback st) l))
  | _ => None
  end.

(** The same function with its arrays in a store: [productos] holds a
    reference, [filter] allocates and [sort] writes. *)
Definition getFilteredProducts_m
    : ArrayStore.M (AppState_ ArrayStore.ref) Producto ArrayStore.ref :=
  let* v := ArrayStore.var productos in
  match v with
  | Array a =>
      let* st := ArrayStore.var id in
      let* b := ArrayStore.filter_m (filter_callback st) a in
      ArrayStore.sort_m sort_callback b
  | _ => ArrayStore.throw
  end.
End Projector.

End Part000.

(** ** What [App] renders

    The results section of the markup [App] returns, and the card of one
    product.  Static labels and class names are left out; the texts that
    depend on the state are kept. *)

Record Card := mkCard {
  card_key : jsstring;
  img_src : jsstring;
  img_alt : jsstring;
  card_pharmacy : jsstring;
  card_name : jsstring;
  price_offer : jsstring;
  price_regular : option jsstring;
  link_href : jsstring
}.

(** The element built for each product of [filteredProducts.map]; the
    regular price is rendered under
    [product.Precio_Regular !== "No disponible"]. *)
Definition product_card (product : Producto) : Card :=
  mkCard (Enlace product) (Imagen_URL product) (Producto_ product)
    (Farmacia product) (Producto_ product) (Precio_Oferta product)
    (if negb (str_eqb (Precio_Regular product) (js "No disponible"))
     then Some (Precio_Regular product) else None)
    (Enlace product).

(** The paragraphs the results container may show above the grid. *)
Inductive Notice :=
| NoResultsNotice
| StartNotice.

Record ResultsContainer := mkResultsContainer {
  header_text : jsstring;
  notices : list Notice;
  products_grid : list Card
}.

Record ResultsSection := mkResultsSection {
  spinner : bool;
  error_state : option jsstring;
  results_container : option ResultsContainer
}.

(** Truthiness of [error]: [null] and the empty string are falsy. *)
Definition error_truthy (e : option jsstring) : bool :=
  match e with
  | Some msg => str_truthy msg
  | None => false
  end.

(** [productos.length], read where [productos] is known to be an array. *)
Definition productos_length (v : jsarray) : nat :=
  match v with
  | Array l => length l
  | _ => 0%nat
  end.

Module AppTsxRender.

Section Render.
Variable toLowerCase : jsstring -> jsstring.

(** [const filteredProducts = getFilteredProducts()] runs first, so a
    [TypeError] of the projection is a [TypeError] of the render. *)
Definition results_section (st : AppState) : option ResultsSection :=
  match AppTsx.getFilteredProducts toLowerCase st with
  | None => None
  | Some filteredProducts =>
      Some (mkResultsSection
        (isLoading st)
        (match error st with
         | Some msg => if str_truthy msg then Some (js "❌ " ++ msg) else None
         | None => None
         end)
        (if negb (isLoading st) && negb (error_truthy (error st)) then
           Some (mkResultsContainer
             (N_to_string (N.of_nat (length filteredProducts))
                ++ js " productos encontrados")
             (if (length filteredProducts =? 0)%nat
                 && (0 <? productos_length (productos st))%nat
              then [NoResultsNotice] else [])
             (map product_card filteredProducts))
         else None))
  end.
End Render.

(** [disabled={isLoading}] on the submit button. *)
Definition submit_disabled (st : AppState) : bool := isLoading st.

End AppTsxRender.

Module Part000Render.

Section Render.
Variable toLowerCase : jsstring -> jsstring.

Definition results_section (st : AppState) : option ResultsSection :=
  match Part000.getFilteredProducts toLowerCase st with
  | None => None
  | Some filteredProducts =>
      Some (mkResultsSection
        (isLoading st)
        (match error st with
         | Some msg => if str_truthy msg then Some (js "❌ " ++ msg) else None
         | None => None
         end)
        (if negb (isLoading st) && negb (error_truthy (error st)) then
           Some (mkResultsContainer
             (N_to_string (N.of_nat (length filteredProducts))
                ++ js " productos encontrados")
             ((if (length filteredProducts =? 0)%nat
                  && (0 <? productos_length (productos st))%nat
               then [NoResultsNotice] else [])
              ++ (if (productos_length (productos st) =? 0)%nat
                     && negb (str_truthy (String_trim (keyword st)))
                  then [StartNotice] else []))
             (map product_card filteredProducts))
         else None))
  end.
End Render.

Definition submit_disabled (st : AppState) : bool := isLoading st.

End Part000Render.

(** ** The component as a machine

    What can happen to a mounted component: the inputs change a state
    variable, the form is submitted, a pending request ends.  The submit
    button is disabled while [isLoading] holds, which also blocks the
    implicit submission of the form, so [Submit] is possible only when
    [isLoading] is false. *)

(** The values of the [option] elements of the pharmacy [select]. *)
Definition pharmacy_options : list jsstring :=
  [ []; js "Inkafarma"; js "Mifarma"; js "BoticasPeru"; js "Boticas y Salud";
    js "Farmacia Universal" ].

(** The values of the range input: [min="0" max="300" step="5"]. *)
Definition slider_value (n : nat) : Q := inject_Z (5 * Z.of_nat n).

Inductive Action :=
| TypeKeyword (s : jsstring)
| TypeName (s : jsstring)
| ChoosePharmacy (s : jsstring)
| MoveSlider (n : nat)
| ToggleOffers (b : bool)
| Submit
| Respond (res : AxiosResult).

Definition continuation : Type :=
  AxiosResult -> AppState -> AppState * list Event.

(** The state variables, the requests still pending with what runs when
    they end, and what has been logged, alerted and requested so far. *)
Record Config := mkConfig {
  current : AppState;
  inflight : list continuation;
  history : list Event
}.

Definition initial_config : Config :=
  mkConfig (mkAppState (js "jabon") (Array []) false None [] [] 300 false)
    [] [].

Section Machine.
(** The submit handler of the component. *)
Variable handleSubmit : AppState -> Task.

(** [None]: the action is not possible in this configuration. *)
Definition step (a : Action) (c : Config) : option Config :=
  match a with
  | TypeKeyword s =>
      Some (mkConfig (setKeyword s (current c)) (inflight c) (history c))
  | TypeName s =>
      Some (mkConfig (setNameFilter s (current c)) (inflight c) (history c))
  | ChoosePharmacy s =>
      if existsb (str_eqb s) pharmacy_options then
        Some (mkConfig (setPharmacyFilter s (current c)) (inflight c)
                (history c))
      else None
  | MoveSlider n =>
      if (n <=? 60)%nat then
        Some (mkConfig (setPriceFilter (slider_value n) (current c))
                (inflight c) (history c))
      else None
  | ToggleOffers b =>
      Some (mkConfig (setOffersFilter b (current c)) (inflight c) (history c))
  | Submit =>
      if isLoading (current c) then None
      else
        match handleSubmit (current c) with
        | Return st log => Some (mkConfig st (inflight c) (history c ++ log))
        | Await st log k =>
            Some (mkConfig st (inflight c ++ [k]) (history c ++ log))
        end
  | Respond res =>
      match inflight c with
      | k :: ks =>
          let '(st, log) := k res (current c) in
          Some (mkConfig st ks (history c ++ log))
      | [] => None
      end
  end.

Fixpoint steps (acts : list Action) (c : Config) : option Config :=
  match acts with
  | [] => Some c
  | a :: acts' =>
      match step a c with
      | Some c' => steps acts' c'
      | None => None
      end
  end.
End Machine.

(** * Definitions of the specification *)

(** [a <= b] on numbers; nothing compares with [NaN]. *)
Definition num_le (a b : number) : Prop :=
  match a, b with
  | NaN, _ | _, NaN => False
  | NegInf, _ => True
  | _, PosInf => True
  | Fin x, Fin y => (x <= y)%Q
  | _, _ => False
  end.

(** Numerical equality ([NaN] equals nothing). *)
Definition num_eqb (a b : number) : bool :=
  match a, b with
  | NegInf, NegInf | PosInf, PosInf => true
  | Fin x, Fin y => Qeq_bool x y
  | _, _ => false
  end.

(** A comparator of the shape [(a, b) => key(a) - key(b)], and the order
    it sorts by. *)
Definition by_key {A} (key : A -> number) (a b : A) : number :=
  num_sub (key a) (key b).

Definition key_le {A} (key : A -> number) (a b : A) : Prop :=
  num_le (key a) (key b).

(** *** The first numeric token of a string, in the words of the
    specification

    A numeric token is a maximal run of digits, with a fraction when a
    point and at least one digit follow it.  The first token starts at the
    first digit of the string. *)

(** The token at the head of a string that starts with a digit. *)
Definition numeric_token_at (s : jsstring) : jsstring :=
  let '(ip, r) := span_digits s in
  if head_is 46 r then
    match (span_digits (tail r)).1 with
    | [] => ip
    | fp => ip ++ 46 :: fp
    end
  else ip.

(** What follows that token. *)
Definition token_rest (s : jsstring) : jsstring :=
  let '(ip, r) := span_digits s in
  if head_is 46 r then
    match (span_digits (tail r)).1 with
    | [] => r
    | _ => (span_digits (tail r)).2
    end
  else r.

Fixpoint first_numeric_token (s : jsstring) : option jsstring :=
  match s with
  | [] => None
  | c :: s' =>
      if is_digit c then Some (numeric_token_at s) else first_numeric_token s'
  end.

(** The number a token denotes: its integer part plus its fraction. *)
Definition token_value (t : jsstring) : Q :=
  let '(ip, r) := span_digits t in
  match r with
  | [] => Qred (inject_Z (digits_val ip))
  | _ :: fp =>
      Qred (inject_Z (digits_val ip)
            + inject_Z (digits_val fp) / inject_Z (10 ^ Z.of_nat (length fp)))
  end.

(** The price the specification derives from [offerPrice]. *)
Definition spec_price (offerPrice : jsstring) : number :=
  match first_numeric_token offerPrice with
  | Some t => Fin (token_value t)
  | None => Fin 0
  end.

(** That price as a number of the language: the Number value of the
    token. *)
Definition Number_of (x : number) : number :=
  match x with
  | Fin q => to_double q
  | _ => x
  end.

(** The sentinel of a product without a regular price. *)
Definition No_disponible : jsstring := js "No disponible".

(** A product passes all the active filters, for a given reading of its
    price: the name filter, when not empty, occurs in the name once both
    are in lower case; the pharmacy filter, when not empty, is the
    pharmacy; the price is at most the maximum; and with [offersOnly] the
    regular price is not the sentinel. *)
Definition passes (lower : jsstring -> jsstring) (price : Producto -> number)
    (st : AppState) (p : Producto) : Prop :=
  (nameFilter st <> [] ->
     exists pre post,
       lower (Producto_ p) = pre ++ lower (nameFilter st) ++ post)
  /\ (pharmacyFilter st <> [] -> Farmacia p = pharmacyFilter st)
  /\ num_le (price p) (Fin (priceFilter st))
  /\ (offersFilter st = true -> Precio_Regular p <> No_disponible).

(** The initial values of the state variables. *)
Definition initial_state : AppState :=
  mkAppState (js "jabon") (Array []) false None [] [] 300 false.

(** A product of the examples, without image and link. *)
Definition product (name offer regular pharmacy : string) : Producto :=
  mkProducto (js name) (js offer) (js regular) [] [] (js pharmacy).

(** The state in which the variable [productos] holds the array [v]
    itself. *)
Definition with_array {T U} (v : jsvalue U) (st : AppState_ T) : AppState_ U :=
  mkAppState (keyword st) v (isLoading st) (error st) (nameFilter st)
    (pharmacyFilter st) (priceFilter st) (offersFilter st).

(** [toLowerCase] on the letters of ASCII, for the examples. *)
Definition toLowerCase_ascii (s : jsstring) : jsstring :=
  map (fun c => if (65 <=? c) && (c <=? 90) then c + 32 else c) s.

(** *** Predicates on configurations *)

(** A configuration the component can be in: some sequence of actions
    leads to it from the mount. *)
Definition reachable (handleSubmit : AppState -> Task) (c : Config) : Prop :=
  exists acts, steps handleSubmit acts initial_config = Some c.

(** Two states with the same keyword and filters. *)
Definition same_inputs (a b : AppState) : Prop :=
  keyword a = keyword b
  /\ nameFilter a = nameFilter b
  /\ pharmacyFilter a = pharmacyFilter b
  /\ priceFilter a = priceFilter b
  /\ offersFilter a = offersFilter b.

Definition is_array (v : jsarray) : Prop := exists l, v = Array l.

(** The field [data] of a body is what the interface of the endpoint
    allows, an array, or is falsy; and the responses of a sequence of
    actions are such. *)
Definition array_or_falsy (v : jsarray) : bool :=
  match v with
  | Array _ => true
  | _ => negb (truthy v)
  end.

Definition typed_result (res : AxiosResult) : bool :=
  match res with
  | Fulfilled {| data := Data d |} => array_or_falsy d
  | _ => true
  end.

Definition typed_action (a : Action) : bool :=
  match a with
  | Respond res => typed_result res
  | _ => true
  end.

(** What the rest of a handler does when its request ends, [store] being
    what it makes of the field [data] of a response: it clears the loading
    flag, keeps the inputs, sends nothing; a rejection, and a response
    without a body, set an error and keep the results; a response with a
    body stores its data and keeps the error. *)
Definition settles (store : jsarray -> jsarray) (k : continuation) : Prop :=
  forall res st,
    isLoading (k res st).1 = false
    /\ same_inputs st (k res st).1
    /\ requests (k res st).2 = []
    /\ match res with
       | Rejected _ | Fulfilled {| data := NullData |} =>
           productos (k res st).1 = productos st
           /\ error_truthy (error (k res st).1) = true
       | Fulfilled {| data := Data d |} =>
           productos (k res st).1 = store d
           /\ error (k res st).1 = error st
       end.

(** What a submit handler does, in terms of the states it produces. *)
Definition submits (store : jsarray -> jsarray)
    (handleSubmit : AppState -> Task) : Prop :=
  forall st,
    match handleSubmit st with
    | Return st' log =>
        requests log = []
        /\ (st' = st
            \/ (isLoading st' = false /\ productos st' = Array []
                /\ error_truthy (error st') = true /\ same_inputs st st'))
    | Await st' log k =>
        length (requests log) = 1%nat
        /\ isLoading st' = true /\ productos st' = Array []
        /\ error st' = None /\ same_inputs st st'
        /\ settles store k
    end.

(** The invariant of the machine. *)
Definition coherent (store : jsarray -> jsarray) (c : Config) : Prop :=
  (isLoading (current c) = true -> exists k, inflight c = [k])
  /\ (isLoading (current c) = false -> inflight c = [])
  /\ (isLoading (current c) = true ->
      productos (current c) = Array [] /\ error (current c) = None)
  /\ (error_truthy (error (current c)) = true ->
      productos (current c) = Array [])
  /\ Forall (settles store) (inflight c)
  /\ (exists n, (n <= 60)%nat /\ priceFilter (current c) = slider_value n)
  /\ In (pharmacyFilter (current c)) pharmacy_options.

Definition count_submits (acts : list Action) : nat :=
  length (List.filter (fun a => match a with Submit => true | _ => false end)
            acts).

(** Exactly one of the spinner, the error and the results container is
    rendered. *)
Definition shows_exactly_one (sec : ResultsSection) : Prop :=
  (spinner sec = true /\ error_state sec = None
   /\ results_container sec = None)
  \/ (spinner sec = false /\ error_state sec <> None
      /\ results_container sec = None)
  \/ (spinner sec = false /\ error_state sec = None
      /\ results_container sec <> None).

(** A numeric token: digits, or digits, a point and digits. *)
Definition is_token (t : jsstring) : Prop :=
  exists ip, ip <> [] /\ forallb is_digit ip = true /\
    (t = ip \/
     exists fp, fp <> [] /\ forallb is_digit fp = true /\ t = ip ++ 46 :: fp).

(** What follows a token does not extend it: it does not start with a
    digit, nor, after an integer, with a point and a digit. *)
Definition ends_token (t post : jsstring) : Prop :=
  match post with x :: _ => is_digit x = false | [] => True end
  /\ (forallb is_digit t = true ->
      forall d rest, post = 46 :: d :: rest -> is_digit d = false).

(** What follows a token does not start with a digit, a point or an
    exponent letter. *)
Definition plain_end (post : jsstring) : Prop :=
  match post with
  | [] => True
  | c :: _ => is_digit c = false /\ c <> 46 /\ c <> 101 /\ c <> 69
  end.

(** An offer price of the usual form: [S/], white space, a numeric token,
    and a rest that does not continue the number. *)
Definition usual_offer (s : jsstring) : Prop :=
  exists ws t post,
    s = js "S/" ++ ws ++ t ++ post
    /\ forallb is_space ws = true /\ is_token t /\ plain_end post.

(** A code unit that is not a surrogate. *)
Definition not_surrogate (c : char) : bool :=
  negb (is_high_surrogate c || is_low_surrogate c).



(** * Properties *)

(** ** The order of numbers *)

Lemma num_or_zero_not_NaN x : num_or_zero x <> NaN.
Proof. unfold num_or_zero. destruct x; simpl; try discriminate.
  destruct (Qeq_bool q 0); discriminate. Qed.

Lemma num_gtb_false_le a b :
  a <> NaN -> b <> NaN -> num_gtb a b = false <-> num_le a b.
Proof.
  intros Ha Hb. destruct a, b; simpl; try congruence; try tauto;
    try (split; [discriminate | tauto]).
  rewrite negb_false_iff. apply Qle_bool_iff.
Qed.

Lemma num_gtb_true_nle a b :
  a <> NaN -> b <> NaN -> num_gtb a b = true <-> ~ num_le a b.
Proof.
  intros Ha Hb. rewrite <- (num_gtb_false_le a b Ha Hb).
  destruct (num_gtb a b); split; congruence.
Qed.

Lemma sort_compare_sub a b :
  a <> NaN -> b <> NaN ->
  sort_compare (num_sub a b) = Gt <-> num_gtb a b = true.
Proof.
  intros Ha Hb. destruct a, b; simpl; try congruence; try tauto;
    try (split; discriminate).
  rewrite negb_true_iff, <- Qgt_alt. split.
  - intros H. destruct (Qle_bool q q0) eqn:E; [|reflexivity].
    apply Qle_bool_iff in E. exfalso.
    apply (Qlt_irrefl 0). eapply Qlt_le_trans; [exact H|].
    rewrite <- (Qplus_opp_r q0). unfold Qminus.
    apply Qplus_le_compat; [exact E | apply Qle_refl].
  - intros E. apply not_true_iff_false in E. rewrite Qle_bool_iff in E.
    apply Qnot_le_lt in E. rewrite <- (Qplus_opp_r q0). unfold Qminus.
    apply Qplus_lt_le_compat; [exact E | apply Qle_refl].
Qed.

Lemma num_le_refl a : a <> NaN -> num_le a a.
Proof. destruct a; simpl; try congruence; auto. intros _. apply Qle_refl. Qed.

Lemma num_le_trans a b c : num_le a b -> num_le b c -> num_le a c.
Proof.
  destruct a, b, c; simpl; try tauto. apply Qle_trans.
Qed.

Lemma num_le_total a b : a <> NaN -> b <> NaN -> num_le a b \/ num_le b a.
Proof.
  intros Ha Hb. destruct a, b; simpl; try congruence; auto.
  destruct (Qlt_le_dec q q0) as [H|H];
    [left; apply Qlt_le_weak, H | right; exact H].
Qed.

Lemma num_eqb_le a b : num_eqb a b = true <-> num_le a b /\ num_le b a.
Proof.
  destruct a, b; simpl; try (split; [discriminate | tauto]); try tauto.
  rewrite Qeq_bool_iff. split.
  - intros H. split; apply Qle_lteq; right; [exact H | symmetry; exact H].
  - intros [H1 H2]. apply Qle_antisym; assumption.
Qed.

(** ** [Array.prototype.sort] *)

Lemma sort_insert_perm {A} (cmp : A -> A -> number) x l :
  Permutation (sort_insert cmp x l) (x :: l).
Proof.
  induction l as [|y l IH]; simpl; [reflexivity|].
  destruct (sort_compare (cmp x y)); try reflexivity.
  rewrite IH. apply perm_swap.
Qed.

Lemma Array_sort_perm {A} (cmp : A -> A -> number) l :
  Permutation (Array_sort cmp l) l.
Proof.
  induction l as [|x l IH]; simpl; [reflexivity|].
  rewrite sort_insert_perm. constructor. exact IH.
Qed.

Section SortByKey.
Context {A : Type} (key : A -> number).
Hypothesis key_num : forall a, key a <> NaN.

Lemma sort_insert_sorted x l :
  StronglySorted (key_le key) l ->
  StronglySorted (key_le key) (sort_insert (by_key key) x l).
Proof using key_num.
  induction 1 as [|y l Hl IH Hy]; simpl.
  - constructor; constructor.
  - assert (Hle : sort_compare (by_key key x y) <> Gt ->
                  StronglySorted (key_le key) (x :: y :: l)).
    { intros E.
      assert (Hxy : key_le key x y).
      { apply num_gtb_false_le; auto. apply not_true_iff_false.
        rewrite <- sort_compare_sub by auto. exact E. }
      constructor; [constructor; assumption|].
      constructor; [exact Hxy|].
      eapply Forall_impl; [exact Hy|]. intros z Hz.
      eapply num_le_trans; eassumption. }
    destruct (sort_compare (by_key key x y)) eqn:E;
      [apply Hle; discriminate | apply Hle; discriminate |].
    assert (Hyx : key_le key y x).
    { apply sort_compare_sub in E; auto.
      apply num_gtb_true_nle in E; auto.
      destruct (num_le_total (key x) (key y)); auto. contradiction. }
    constructor; [exact IH|].
    eapply Permutation_Forall; [symmetry; apply sort_insert_perm|].
    constructor; assumption.
Qed.

Lemma Array_sort_sorted l :
  StronglySorted (key_le key) (Array_sort (by_key key) l).
Proof using key_num.
  induction l as [|x l IH]; simpl; [constructor|].
  apply sort_insert_sorted, IH.
Qed.

(** Stability: within a class of elements that the comparator does not
    tell apart, the order of the input is kept. *)
Lemma sort_insert_class (P : A -> bool) x l :
  (forall a b, P a = true -> P b = true -> key_le key a b) ->
  List.filter P (sort_insert (by_key key) x l) = List.filter P (x :: l).
Proof using key_num.
  intros HP. induction l as [|y l IH]; simpl; [reflexivity|].
  destruct (sort_compare (by_key key x y)) eqn:E; try reflexivity.
  simpl. rewrite IH. simpl.
  destruct (P x) eqn:Px, (P y) eqn:Py; try reflexivity.
  exfalso. apply sort_compare_sub in E; auto.
  apply num_gtb_true_nle in E; auto.
  apply E, HP; assumption.
Qed.

Lemma Array_sort_stable (P : A -> bool) l :
  (forall a b, P a = true -> P b = true -> key_le key a b) ->
  List.filter P (Array_sort (by_key key) l) = List.filter P l.
Proof using key_num.
  intros HP. induction l as [|x l IH]; simpl; [reflexivity|].
  rewrite sort_insert_class by exact HP. simpl. rewrite IH. reflexivity.
Qed.

(** A stable sort has one possible result: two sorted lists with the same
    elements in the same order within each class are equal. *)
Lemma stable_sort_unique (l1 l2 : list A) :
  StronglySorted (key_le key) l1 -> StronglySorted (key_le key) l2 ->
  (forall a, List.filter (fun b => num_eqb (key b) (key a)) l1
             = List.filter (fun b => num_eqb (key b) (key a)) l2) ->
  l1 = l2.
Proof using key_num.
  intros H1. revert l2. induction H1 as [|a l1 Hs1 IH Ha]; intros l2 H2 Hc.
  - destruct l2 as [|b l2]; [reflexivity|].
    specialize (Hc b). simpl in Hc.
    assert (E : num_eqb (key b) (key b) = true).
    { apply num_eqb_le. split; apply num_le_refl; auto. }
    rewrite E in Hc. discriminate.
  - assert (Eaa : num_eqb (key a) (key a) = true).
    { apply num_eqb_le. split; apply num_le_refl; auto. }
    destruct H2 as [|b l2 Hs2 Hb].
    { specialize (Hc a). simpl in Hc. rewrite Eaa in Hc. discriminate. }
    assert (Eba : num_eqb (key b) (key a) = true).
    { apply num_eqb_le. split.
      - pose proof (Hc a) as Hca. simpl in Hca. rewrite Eaa in Hca.
        destruct (num_eqb (key b) (key a)) eqn:E.
        + apply num_eqb_le in E. tauto.
        + assert (Hin : In a (List.filter
                                (fun b0 => num_eqb (key b0) (key a)) l2)).
          { rewrite <- Hca. left. reflexivity. }
          apply filter_In in Hin. destruct Hin as [Hin _].
          rewrite Forall_forall in Hb. apply Hb.
          apply list_elem_of_In. exact Hin.
      - pose proof (Hc b) as Hcb. simpl in Hcb.
        assert (Ebb : num_eqb (key b) (key b) = true).
        { apply num_eqb_le. split; apply num_le_refl; auto. }
        rewrite Ebb in Hcb.
        destruct (num_eqb (key a) (key b)) eqn:E.
        + apply num_eqb_le in E. tauto.
        + assert (Hin : In b (List.filter
                                (fun b0 => num_eqb (key b0) (key b)) l1)).
          { rewrite Hcb. left. reflexivity. }
          apply filter_In in Hin. destruct Hin as [Hin _].
          rewrite Forall_forall in Ha. apply Ha.
          apply list_elem_of_In. exact Hin. }
    pose proof (Hc a) as Hca. simpl in Hca. rewrite Eaa, Eba in Hca.
    injection Hca as Hab Hrest. subst b. f_equal.
    apply IH; [exact Hs2|].
    intros c. specialize (Hc c). simpl in Hc.
    destruct (num_eqb (key a) (key c)); [injection Hc; auto | exact Hc].
Qed.
End SortByKey.

(** ** Strings and the price pattern *)

Lemma str_eqb_eq a b : str_eqb a b = true <-> a = b.
Proof.
  revert b. induction a as [|x a IH]; intros [|y b]; simpl;
    try (split; [discriminate | congruence]); [tauto|].
  rewrite andb_true_iff, N.eqb_eq, IH. split; [intros []; congruence|].
  intros E. injection E. auto.
Qed.

Lemma str_eqb_neq a b : str_eqb a b = false <-> a <> b.
Proof. rewrite <- str_eqb_eq. destruct (str_eqb a b); split; congruence. Qed.

Lemma str_truthy_ne s : str_truthy s = true <-> s <> [].
Proof. destruct s; simpl; split; congruence. Qed.

Lemma starts_with_spec p s :
  starts_with p s = true <-> exists post, s = p ++ post.
Proof.
  revert s. induction p as [|x p IH]; intros s; simpl.
  - split; [eauto | reflexivity].
  - destruct s as [|y s].
    + split; [discriminate | intros [post H]; discriminate].
    + rewrite andb_true_iff, N.eqb_eq, IH. split.
      * intros [-> [post ->]]. eauto.
      * intros [post H]. injection H as -> ->. eauto.
Qed.

(** [includes] is containment as a contiguous substring. *)
Lemma String_includes_spec s sub :
  String_includes s sub = true <-> exists pre post, s = pre ++ sub ++ post.
Proof.
  induction s as [|c s IH]; simpl.
  - rewrite orb_false_r, starts_with_spec. split.
    + intros [post H]. exists [], post. exact H.
    + intros [pre [post H]]. destruct pre; [eauto | discriminate].
  - rewrite orb_true_iff, starts_with_spec, IH. split.
    + intros [[post H] | [pre [post H]]].
      * exists [], post. exact H.
      * exists (c :: pre), post. simpl. congruence.
    + intros [[|x pre] [post H]].
      * left. eauto.
      * right. injection H as _ H. eauto.
Qed.

Lemma span_digits_split s :
  s = (span_digits s).1 ++ (span_digits s).2.
Proof.
  induction s as [|c s IH]; simpl; [reflexivity|].
  destruct (is_digit c); [|reflexivity].
  destruct (span_digits s) as [ds r]. simpl in *. congruence.
Qed.

Lemma span_digits_digits s : forallb is_digit (span_digits s).1 = true.
Proof.
  induction s as [|c s IH]; simpl; [reflexivity|].
  destruct (is_digit c) eqn:E; [|reflexivity].
  destruct (span_digits s) as [ds r]. simpl in *. rewrite E. exact IH.
Qed.

(** A run of digits followed by something that is not a digit is spanned
    exactly. *)
Lemma span_digits_app ds r :
  forallb is_digit ds = true ->
  match r with c :: _ => is_digit c = false | [] => True end ->
  span_digits (ds ++ r) = (ds, r).
Proof.
  intros Hd Hr. induction ds as [|d ds IH]; simpl in *.
  - destruct r as [|c r]; simpl; [reflexivity|]. rewrite Hr. reflexivity.
  - apply andb_true_iff in Hd. destruct Hd as [-> Hd].
    rewrite (IH Hd). reflexivity.
Qed.

Lemma span_digits_rest_head s :
  match (span_digits s).2 with c :: _ => is_digit c = false | [] => True end.
Proof.
  induction s as [|c s IH]; simpl; [exact I|].
  destruct (is_digit c) eqn:E; simpl; [|exact E].
  destruct (span_digits s) as [ds r]. exact IH.
Qed.

(** The greedy loop of a class never has to give a character back when
    what follows cannot fail. *)
Lemma star_loop_digits {A} (k : jsstring -> option A) s :
  (forall t, is_Some (k t)) ->
  star_loop is_digit k s = k (span_digits s).2.
Proof.
  intros Hk. induction s as [|c s IH]; simpl; [reflexivity|].
  destruct (is_digit c); [|reflexivity].
  rewrite IH. destruct (span_digits s) as [ds r]. simpl.
  destruct (Hk r) as [a ->]. reflexivity.
Qed.

Lemma head_is_cons c s : head_is c s = true -> s = c :: tail s.
Proof. destruct s; simpl; [discriminate|]. rewrite N.eqb_eq. congruence. Qed.

Lemma numeric_token_split s : s = numeric_token_at s ++ token_rest s.
Proof.
  unfold numeric_token_at, token_rest.
  pose proof (span_digits_split s) as Hs.
  destruct (span_digits s) as [ip r]. simpl in Hs.
  destruct (head_is 46 r) eqn:E; [|exact Hs].
  apply head_is_cons in E.
  pose proof (span_digits_split (tail r)) as Hr.
  destruct (span_digits (tail r)) as [fp r2]. simpl in *.
  destruct fp as [|d fp]; [exact Hs|].
  rewrite Hs at 1. rewrite E at 1. rewrite Hr at 1.
  rewrite <- app_assoc. reflexivity.
Qed.

(** One attempt of [/\d+(\.\d+)?/] at the head of a string. *)
Lemma rx_match_number s :
  rx_match re_number s Some =
  match s with
  | c :: _ => if is_digit c then Some (token_rest s) else None
  | [] => None
  end.
Proof.
  unfold re_number. destruct s as [|c s]; [reflexivity|].
  cbn [rx_match]. destruct (is_digit c) eqn:Ec; [|reflexivity].
  rewrite star_loop_digits.
  2:{ intros t.
      match goal with |- is_Some (match ?x with _ => _ end) => destruct x end;
        eauto. }
  unfold token_rest. simpl. rewrite Ec.
  destruct (span_digits s) as [ip r]. simpl.
  destruct r as [|x r1]; [reflexivity|]. simpl.
  destruct (x =? 46); [|reflexivity].
  destruct r1 as [|d r2]; [reflexivity|]. simpl.
  destruct (is_digit d); [|reflexivity].
  rewrite star_loop_digits by eauto.
  destruct (span_digits r2) as [fp r3]. reflexivity.
Qed.

Lemma take_app_length' {A} (l1 l2 : list A) :
  take (length (l1 ++ l2) - length l2)%nat (l1 ++ l2) = l1.
Proof.
  rewrite length_app. replace (length l1 + length l2 - length l2)%nat
    with (length l1) by lia.
  apply take_app_length.
Qed.

(** [match] with the price pattern returns the first numeric token. *)
Lemma String_match_number s :
  String_match s re_number = first_numeric_token s.
Proof.
  unfold String_match.
  assert (H : forall pre, match rx_exec re_number pre s with
                          | Some (_, m, _) => Some m
                          | None => None
                          end = first_numeric_token s).
  { induction s as [|c s IH]; intros pre; [reflexivity|].
    cbn [rx_exec first_numeric_token]. rewrite rx_match_number.
    destruct (is_digit c) eqn:Ec; [|apply IH].
    f_equal. pose proof (numeric_token_split (c :: s)) as Hs.
    set (t := numeric_token_at (c :: s)) in *.
    set (r := token_rest (c :: s)) in *.
    rewrite Hs. apply take_app_length'. }
  apply H.
Qed.

Lemma is_digit_range c : is_digit c = true <-> 48 <= c <= 57.
Proof. unfold is_digit. rewrite andb_true_iff, !N.leb_le. tauto. Qed.

Lemma digit_cases c :
  is_digit c = true ->
  c = 48 \/ c = 49 \/ c = 50 \/ c = 51 \/ c = 52 \/ c = 53 \/ c = 54
  \/ c = 55 \/ c = 56 \/ c = 57.
Proof. rewrite is_digit_range. lia. Qed.

Lemma digit_not_special c :
  is_digit c = true ->
  is_space c = false /\ (c =? 43) = false /\ (c =? 45) = false
  /\ (c =? 46) = false /\ (73 =? c) = false.
Proof.
  intros H. apply digit_cases in H.
  repeat destruct H as [H|H]; subst c; repeat split; reflexivity.
Qed.

Lemma digits_val_acc ds acc :
  fold_left (fun a c => (10 * a + digit_val c)%Z) ds acc
  = (acc * 10 ^ Z.of_nat (length ds) + digits_val ds)%Z.
Proof.
  unfold digits_val. revert acc.
  induction ds as [|d ds IH]; intros acc.
  - cbn [fold_left length]. change (Z.of_nat 0) with 0%Z.
    rewrite Z.pow_0_r. lia.
  - cbn [fold_left length]. rewrite IH, (IH (10 * 0 + digit_val d)%Z).
    rewrite Nat2Z.inj_succ, Z.pow_succ_r by lia. ring.
Qed.

Lemma digits_val_app ip fp :
  digits_val (ip ++ fp)
  = (digits_val ip * 10 ^ Z.of_nat (length fp) + digits_val fp)%Z.
Proof.
  unfold digits_val at 1. rewrite fold_left_app.
  rewrite digits_val_acc. reflexivity.
Qed.

Lemma decimal_int m : decimal m 0 = Qred (inject_Z m).
Proof. unfold decimal. apply Qred_complete. simpl. ring. Qed.

Lemma decimal_fraction a b n :
  decimal (a * 10 ^ Z.of_nat n + b) (0 - Z.of_nat n)
  = Qred (inject_Z a + inject_Z b / inject_Z (10 ^ Z.of_nat n)).
Proof.
  unfold decimal. apply Qred_complete.
  assert (Hp : (0 < 10 ^ Z.of_nat n)%Z) by (apply Z.pow_pos_nonneg; lia).
  assert (Hq : ~ inject_Z (10 ^ Z.of_nat n) == 0).
  { intros H. change (inject_Z (10 ^ Z.of_nat n) == inject_Z 0) in H.
    apply (proj1 (inject_Z_injective _ _)) in H. lia. }
  rewrite Z.sub_0_l, Qpower_opp.
  change (10 : Q) with (inject_Z 10).
  rewrite <- Zpower_Qpower by lia.
  rewrite inject_Z_plus, inject_Z_mult. field. exact Hq.
Qed.

(** The shape of a numeric token. *)
Lemma numeric_token_shape c s :
  is_digit c = true ->
  exists ip, ip <> [] /\ forallb is_digit ip = true /\
    (numeric_token_at (c :: s) = ip \/
     exists fp, fp <> [] /\ forallb is_digit fp = true /\
       numeric_token_at (c :: s) = ip ++ 46 :: fp).
Proof.
  intros Hc. unfold numeric_token_at.
  pose proof (span_digits_digits (c :: s)) as Hd.
  assert (Hne : (span_digits (c :: s)).1 <> []).
  { simpl. rewrite Hc. destruct (span_digits s). discriminate. }
  destruct (span_digits (c :: s)) as [ip r]. simpl in Hd, Hne.
  exists ip. split; [exact Hne|]. split; [exact Hd|].
  destruct (head_is 46 r); [|left; reflexivity].
  pose proof (span_digits_digits (tail r)) as Hf.
  destruct (span_digits (tail r)) as [fp r2]. simpl in *.
  destruct fp as [|d fp]; [left; reflexivity|].
  right. exists (d :: fp). split; [discriminate|]. split; [exact Hf|reflexivity].
Qed.

(** What the first numeric token is: the string splits into a part
    without digits, the token, and a rest that cannot extend the token. *)
Lemma numeric_token_maximal c s :
  is_digit c = true ->
  match token_rest (c :: s) with x :: _ => is_digit x = false | [] => True end
  /\ (forallb is_digit (numeric_token_at (c :: s)) = true ->
      forall d rest, token_rest (c :: s) = 46 :: d :: rest ->
        is_digit d = false).
Proof.
  intros Hc. unfold numeric_token_at, token_rest.
  pose proof (span_digits_rest_head (c :: s)) as Hr.
  destruct (span_digits (c :: s)) as [ip r]. cbn [fst snd] in Hr.
  destruct (head_is 46 r) eqn:E.
  - pose proof (span_digits_rest_head (tail r)) as Hr2.
    pose proof (span_digits_split (tail r)) as Hs2.
    destruct (span_digits (tail r)) as [fp r2]. cbn [fst snd] in *.
    destruct fp as [|f fp].
    + split; [exact Hr|]. intros _ d rest Hrest. rewrite Hrest in Hs2.
      cbn [tail app] in Hs2. rewrite <- Hs2 in Hr2. exact Hr2.
    + split; [exact Hr2|]. intros Hd. rewrite forallb_app in Hd.
      apply andb_true_iff in Hd. destruct Hd as [_ Hd]. discriminate Hd.
  - split; [exact Hr|]. intros _ d rest Hrest. rewrite Hrest in E.
    discriminate E.
Qed.

Lemma first_numeric_token_None s :
  first_numeric_token s = None
  <-> forallb (fun c => negb (is_digit c)) s = true.
Proof.
  induction s as [|c s IH]; cbn [first_numeric_token forallb]; [tauto|].
  destruct (is_digit c); cbn [negb andb]; [split; discriminate | exact IH].
Qed.

Lemma first_numeric_token_Some s t :
  first_numeric_token s = Some t ->
  exists pre post,
    s = pre ++ t ++ post
    /\ forallb (fun c => negb (is_digit c)) pre = true
    /\ (exists ip, ip <> [] /\ forallb is_digit ip = true /\
          (t = ip \/
           exists fp, fp <> [] /\ forallb is_digit fp = true /\
             t = ip ++ 46 :: fp))
    /\ match post with x :: _ => is_digit x = false | [] => True end
    /\ (forallb is_digit t = true ->
        forall d rest, post = 46 :: d :: rest -> is_digit d = false).
Proof.
  induction s as [|c s IH]; cbn [first_numeric_token]; [discriminate|].
  destruct (is_digit c) eqn:Ec.
  - intros [= <-]. exists [], (token_rest (c :: s)).
    split; [apply numeric_token_split|]. split; [reflexivity|].
    split; [apply numeric_token_shape, Ec|].
    apply numeric_token_maximal, Ec.
  - intros H. destruct (IH H) as (pre & post & -> & Hpre & Hrest).
    exists (c :: pre), post. split; [reflexivity|].
    split; [cbn [forallb]; rewrite Ec; exact Hpre | exact Hrest].
Qed.

Lemma parseFloat_digits_head c t :
  is_digit c = true -> parseFloat (c :: t) =
    let '(ip, r) := span_digits (c :: t) in
    if head_is 46 r then
      let '(fp, r2) := span_digits (tail r) in
      match ip, fp with
      | [], [] => NaN
      | _, _ =>
          to_double (decimal (digits_val (ip ++ fp))
                       (exponent_part r2 - Z.of_nat (length fp)))
      end
    else
      match ip with
      | [] => NaN
      | _ => to_double (decimal (digits_val ip) (exponent_part r))
      end.
Proof.
  intros Hc. destruct (digit_not_special c Hc) as (Hs & Hp & Hm & _ & Hi).
  unfold parseFloat. cbn [skip_spaces]. rewrite Hs.
  cbn [head_is]. rewrite Hp, Hm.
  unfold unsigned_literal.
  change (starts_with (js "Infinity") (c :: t))
    with ((73 =? c) && starts_with (js "nfinity") t).
  rewrite Hi. reflexivity.
Qed.

Lemma to_double_pos_cases n d :
  to_double_pos n d = PosInf \/ exists q, to_double_pos n d = Fin (Qred q).
Proof.
  unfold to_double_pos. cbv zeta.
  match goal with |- context [if ?b then PosInf else _] => destruct b end;
    [left; reflexivity | right; eexists; reflexivity].
Qed.

Lemma to_double_cases q :
  to_double q = PosInf \/ to_double q = NegInf
  \/ exists q', to_double q = Fin (Qred q').
Proof.
  unfold to_double. destruct (Qnum q) as [|n|n].
  - right; right. exists 0%Q. reflexivity.
  - destruct (to_double_pos_cases n (Qden q)) as [-> | (q' & ->)];
      [left; reflexivity | right; right; exists q'; reflexivity].
  - destruct (to_double_pos_cases n (Qden q)) as [-> | (q' & ->)];
      [right; left; reflexivity |].
    right; right. eexists. reflexivity.
Qed.

Lemma to_double_not_NaN q : to_double q <> NaN.
Proof.
  destruct (to_double_cases q) as [-> | [-> | (q' & ->)]]; discriminate.
Qed.

(** [parseFloat] reads a numeric token as the Number value of the number
    it denotes. *)
Lemma parseFloat_token c s :
  is_digit c = true ->
  parseFloat (numeric_token_at (c :: s))
  = to_double (token_value (numeric_token_at (c :: s))).
Proof.
  intros Hc.
  destruct (numeric_token_shape c s Hc) as (ip & Hne & Hip & [-> | H]).
  - destruct ip as [|d ip]; [congruence|].
    assert (Hd : is_digit d = true).
    { simpl in Hip. apply andb_true_iff in Hip. tauto. }
    rewrite parseFloat_digits_head by exact Hd.
    unfold token_value.
    pose proof (span_digits_app (d :: ip) [] Hip I) as E.
    rewrite app_nil_r in E. rewrite E. cbn [head_is exponent_part].
    rewrite decimal_int. reflexivity.
  - destruct H as (fp & Hfne & Hfp & ->).
    destruct ip as [|d ip]; [congruence|].
    assert (Hd : is_digit d = true).
    { simpl in Hip. apply andb_true_iff in Hip. tauto. }
    change ((d :: ip) ++ 46 :: fp) with (d :: (ip ++ 46 :: fp)).
    rewrite parseFloat_digits_head by exact Hd.
    unfold token_value.
    change (d :: (ip ++ 46 :: fp)) with ((d :: ip) ++ 46 :: fp).
    rewrite (span_digits_app (d :: ip) (46 :: fp) Hip eq_refl).
    cbn [head_is tail]. change (46 =? 46) with true. cbv iota.
    pose proof (span_digits_app fp [] Hfp I) as E.
    rewrite app_nil_r in E. rewrite E.
    cbn [exponent_part]. rewrite digits_val_app, decimal_fraction.
    destruct fp; [congruence|]. reflexivity.
Qed.

(** The price of the filter of the second component is the Number value
    of the price of the specification. *)
Lemma Part000_price_spec product :
  Part000.price product = Number_of (spec_price (Precio_Oferta product)).
Proof.
  unfold Part000.price, spec_price. rewrite String_match_number.
  generalize (Precio_Oferta product). intros s.
  induction s as [|c s IH]; [reflexivity|].
  cbn [first_numeric_token]. destruct (is_digit c) eqn:Ec; [|exact IH].
  cbn [Number_of]. apply parseFloat_token, Ec.
Qed.

Lemma Part000_price_not_NaN product : Part000.price product <> NaN.
Proof.
  rewrite Part000_price_spec. unfold spec_price.
  destruct (first_numeric_token _); cbn [Number_of];
    [apply to_double_not_NaN | discriminate].
Qed.

Lemma AppTsx_price_not_NaN product : AppTsx.price product <> NaN.
Proof. apply num_or_zero_not_NaN. Qed.

(** ** The filter and sort projection *)

Lemma guard_false (b c : bool) (P : Prop) :
  (c = true <-> P) ->
  (b && negb c = false <-> (b = true -> P)).
Proof.
  intros H. destruct b, c; simpl; split; try tauto; try congruence.
  intros HP. specialize (HP eq_refl). apply H in HP. discriminate.
Qed.

Lemma callback_shape (g1 g2 g3 g4 : bool) :
  (if g1 then false else if g2 then false else if g3 then false
   else if g4 then false else true) = true
  <-> g1 = false /\ g2 = false /\ g3 = false /\ g4 = false.
Proof. destruct g1, g2, g3, g4; simpl; split; try tauto; try congruence;
  intros (? & ? & ? & ?); discriminate. Qed.

Lemma passes_iff lower price (st : AppState) p :
  price p <> NaN ->
  passes lower price st p <->
  str_truthy (nameFilter st)
    && negb (String_includes (lower (Producto_ p)) (lower (nameFilter st)))
    = false
  /\ str_truthy (pharmacyFilter st)
       && negb (str_eqb (Farmacia p) (pharmacyFilter st)) = false
  /\ num_gtb (price p) (Fin (priceFilter st)) = false
  /\ offersFilter st
       && negb (negb (str_eqb (Precio_Regular p) No_disponible)) = false.
Proof.
  intros Hp. unfold passes.
  rewrite (guard_false _ _ _ (String_includes_spec _ _)).
  rewrite (guard_false _ _ _ (str_eqb_eq _ _)).
  rewrite num_gtb_false_le by (auto; discriminate).
  rewrite negb_involutive, !str_truthy_ne.
  assert (Ho : offersFilter st && str_eqb (Precio_Regular p) No_disponible
               = false
               <-> (offersFilter st = true -> Precio_Regular p <> No_disponible)).
  { rewrite <- str_eqb_neq. destruct (offersFilter st), (str_eqb _ _);
      simpl; split; try tauto; try congruence. }
  rewrite Ho. tauto.
Qed.

Lemma AppTsx_callback_passes lower (st : AppState) p :
  AppTsx.filter_callback lower st p = true <-> passes lower AppTsx.price st p.
Proof.
  rewrite passes_iff by apply AppTsx_price_not_NaN.
  unfold AppTsx.filter_callback. cbv zeta. apply callback_shape.
Qed.

Lemma Part000_callback_passes lower (st : AppState) p :
  Part000.filter_callback lower st p = true
  <-> passes lower Part000.price st p.
Proof.
  rewrite passes_iff by apply Part000_price_not_NaN.
  unfold Part000.filter_callback. cbv zeta. apply callback_shape.
Qed.

Lemma AppTsx_projection lower (st : AppState) raw :
  AppTsx.getFilteredProducts lower (setProductos (Array raw) st)
  = Some (Array_sort (by_key AppTsx.price)
            (List.filter (AppTsx.filter_callback lower st) raw)).
Proof. reflexivity. Qed.

Lemma Part000_projection lower (st : AppState) raw :
  Part000.getFilteredProducts lower (setProductos (Array raw) st)
  = Some (Array_sort (by_key AppTsx.price)
            (List.filter (Part000.filter_callback lower st) raw)).
Proof. reflexivity. Qed.

Lemma In_sorted_filter {A} (cmp : A -> A -> number) (f : A -> bool) l x :
  In x (Array_sort cmp (List.filter f l)) <-> In x l /\ f x = true.
Proof.
  rewrite <- filter_In. split; apply Permutation_in;
    [|symmetry]; apply Array_sort_perm.
Qed.

Lemma count_occ_filter_le {A} (dec : forall x y : A, {x = y} + {x <> y})
    (f : A -> bool) l x :
  (count_occ dec (List.filter f l) x <= count_occ dec l x)%nat.
Proof.
  induction l as [|y l IH]; simpl; [lia|].
  destruct (f y); simpl; destruct (dec y x); lia.
Qed.

Lemma sorted_filter_within {A} (cmp : A -> A -> number) (f : A -> bool) l :
  let out := Array_sort cmp (List.filter f l) in
  (forall x, In x out -> In x l)
  /\ (forall (dec : forall x y : A, {x = y} + {x <> y}) x,
        (count_occ dec out x <= count_occ dec l x)%nat)
  /\ (length out <= length l)%nat.
Proof.
  intros out. split; [|split].
  - intros x Hx. apply In_sorted_filter in Hx. tauto.
  - intros dec x. unfold out.
    rewrite (proj1 (Permutation_count_occ dec _ _) (Array_sort_perm cmp _) x).
    apply count_occ_filter_le.
  - unfold out. rewrite (Permutation_length (Array_sort_perm cmp _)).
    apply filter_length_le.
Qed.

(** A product is in the output of the projection exactly when it is in
    the raw list and passes the four filters, the price being the one the
    filter of the component reads. *)
Lemma projection_membership lower (st : AppState) raw p :
  (exists out,
     AppTsx.getFilteredProducts lower (setProductos (Array raw) st) = Some out
     /\ (In p out <-> In p raw /\ passes lower AppTsx.price st p))
  /\ (exists out,
        Part000.getFilteredProducts lower (setProductos (Array raw) st)
        = Some out
        /\ (In p out <-> In p raw /\ passes lower Part000.price st p)).
Proof.
  split; eexists; (split; [reflexivity|]); rewrite In_sorted_filter.
  - rewrite AppTsx_callback_passes. reflexivity.
  - rewrite Part000_callback_passes. reflexivity.
Qed.

(** C3. [src/App.tsx] does not remove every product whose extracted price
    is above the maximum: the price it compares is not the first numeric
    token when something other than [S/] and white space precedes the
    token.  With the maximum at 300, a product offered at [S/. 500.00] is
    read at 0 and stays in the output; the filter of the second component
    removes it. *)
Theorem filter_keeps_price_above_max lower :
  let p := product "Crema" "S/. 500.00" "S/. 650.00" "Inkafarma" in
  let st := setProductos (Array [p]) initial_state in
  spec_price (Precio_Oferta p) = Fin 500
  /\ priceFilter st = 300%Q
  /\ num_gtb (spec_price (Precio_Oferta p)) (Fin (priceFilter st)) = true
  /\ AppTsx.price p = Fin 0
  /\ AppTsx.getFilteredProducts lower st = Some [p]
  /\ Part000.price p = Fin 500
  /\ Part000.getFilteredProducts lower st = Some [].
Proof. repeat split; vm_compute; reflexivity. Qed.

Lemma passes_offers lower price (st : AppState) p :
  passes lower price (setOffersFilter true st) p
  <-> passes lower price (setOffersFilter false st) p
      /\ Precio_Regular p <> No_disponible.
Proof.
  unfold passes. cbn [nameFilter pharmacyFilter priceFilter offersFilter
                        setOffersFilter].
  split.
  - intros (H1 & H2 & H3 & H4). repeat split; auto.
  - intros ((H1 & H2 & H3 & _) & H4). repeat split; auto.
Qed.

(** C4. Having an offer is having a regular price other than the sentinel
    [No disponible], compared code unit by code unit: with [offersOnly] the
    output holds the products that are in the output without it and whose
    regular price is not the sentinel. *)
Theorem offers_only_filter lower (st : AppState) raw p :
  (exists out_on out_off,
     AppTsx.getFilteredProducts lower
       (setOffersFilter true (setProductos (Array raw) st)) = Some out_on
     /\ AppTsx.getFilteredProducts lower
          (setOffersFilter false (setProductos (Array raw) st)) = Some out_off
     /\ (In p out_on <-> In p out_off /\ Precio_Regular p <> No_disponible))
  /\ (exists out_on out_off,
        Part000.getFilteredProducts lower
          (setOffersFilter true (setProductos (Array raw) st)) = Some out_on
        /\ Part000.getFilteredProducts lower
             (setOffersFilter false (setProductos (Array raw) st))
           = Some out_off
        /\ (In p out_on <-> In p out_off /\ Precio_Regular p <> No_disponible)).
Proof.
  split; eexists _, _; (split; [reflexivity|]); (split; [reflexivity|]);
    rewrite !In_sorted_filter.
  - change (AppTsx.filter_callback lower
              (setOffersFilter true (setProductos (Array raw) st)) p)
      with (AppTsx.filter_callback lower (setOffersFilter true st) p).
    change (AppTsx.filter_callback lower
              (setOffersFilter false (setProductos (Array raw) st)) p)
      with (AppTsx.filter_callback lower (setOffersFilter false st) p).
    rewrite !AppTsx_callback_passes, passes_offers. tauto.
  - change (Part000.filter_callback lower
              (setOffersFilter true (setProductos (Array raw) st)) p)
      with (Part000.filter_callback lower (setOffersFilter true st) p).
    change (Part000.filter_callback lower
              (setOffersFilter false (setProductos (Array raw) st)) p)
      with (Part000.filter_callback lower (setOffersFilter false st) p).
    rewrite !Part000_callback_passes, passes_offers. tauto.
Qed.

(** C10. Every product of the output is a product of the raw list, none
    occurs more often in the output than in the raw list, and the output is
    not longer than the raw list. *)
Theorem projection_within_raw lower (st : AppState) raw :
  (exists out,
     AppTsx.getFilteredProducts lower (setProductos (Array raw) st) = Some out
     /\ (forall p, In p out -> In p raw)
     /\ (forall (dec : forall x y : Producto, {x = y} + {x <> y}) p,
           (count_occ dec out p <= count_occ dec raw p)%nat)
     /\ (length out <= length raw)%nat)
  /\ (exists out,
        Part000.getFilteredProducts lower (setProductos (Array raw) st)
        = Some out
        /\ (forall p, In p out -> In p raw)
        /\ (forall (dec : forall x y : Producto, {x = y} + {x <> y}) p,
              (count_occ dec out p <= count_occ dec raw p)%nat)
        /\ (length out <= length raw)%nat).
Proof.
  split; eexists; (split; [reflexivity|]); apply sorted_filter_within.
Qed.

(** The projection sorts by the key of its comparator, and keeps the order
    of the raw list among products with the same key. *)
Lemma projection_sorted (f : Producto -> bool) raw :
  let out := Array_sort (by_key AppTsx.price) (List.filter f raw) in
  Permutation out (List.filter f raw)
  /\ StronglySorted (key_le AppTsx.price) out
  /\ forall k, List.filter (fun p => num_eqb (AppTsx.price p) k) out
               = List.filter (fun p => num_eqb (AppTsx.price p) k)
                   (List.filter f raw).
Proof.
  intros out. split; [apply Array_sort_perm|]. split.
  - apply Array_sort_sorted, AppTsx_price_not_NaN.
  - intros k. apply Array_sort_stable; [apply AppTsx_price_not_NaN|].
    intros a b Ha Hb. apply num_eqb_le in Ha, Hb. unfold key_le.
    eapply num_le_trans; [apply Ha | apply Hb].
Qed.

(** The examples of the specification: prices 30, 10 and 20 come out as 10,
    20 and 30 in both components. *)
Example sort_30_10_20 lower :
  let a := product "A" "S/ 30" "No disponible" "Inkafarma" in
  let b := product "B" "S/ 10" "No disponible" "Inkafarma" in
  let c := product "C" "S/ 20" "No disponible" "Inkafarma" in
  AppTsx.getFilteredProducts lower
    (setProductos (Array [a; b; c]) initial_state) = Some [b; c; a]
  /\ Part000.getFilteredProducts lower
       (setProductos (Array [a; b; c]) initial_state) = Some [b; c; a].
Proof. split; vm_compute; reflexivity. Qed.

(** The two scenarios of the specification: with a maximum of 10 only the
    product at 8 remains; with [offersOnly] only the product that has a
    regular price remains. *)
Example scenario_dove_nivea lower :
  let dove := product "Jabon Dove" "S/ 15" "S/ 20" "Inkafarma" in
  let nivea := product "Jabon Nivea" "S/ 8" "No disponible" "Mifarma" in
  let st := setProductos (Array [dove; nivea]) initial_state in
  AppTsx.getFilteredProducts lower (setPriceFilter 10 st) = Some [nivea]
  /\ Part000.getFilteredProducts lower (setPriceFilter 10 st) = Some [nivea]
  /\ AppTsx.getFilteredProducts lower (setOffersFilter true st) = Some [dove]
  /\ Part000.getFilteredProducts lower (setOffersFilter true st) = Some [dove].
Proof. repeat split; vm_compute; reflexivity. Qed.

Example price_examples :
  let p offer := product "A" offer "No disponible" "Inkafarma" in
  AppTsx.price (p "Consultar") = Fin 0
  /\ AppTsx.price (p "S/ 12.50") = Fin (25 # 2)
  /\ AppTsx.price (p "S/12") = Fin 12
  /\ Part000.price (p "Consultar") = Fin 0
  /\ Part000.price (p "S/ 12.50") = Fin (25 # 2)
  /\ Part000.price (p "S/12") = Fin 12.
Proof. repeat split; vm_compute; reflexivity. Qed.

(** [parseFloat] gives the binary64 value nearest to the literal: a digit
    beyond the precision is lost, a tie goes to the even neighbour, and the
    range ends in [Infinity] above and in 0 below. *)
Example parseFloat_rounds :
  parseFloat (js "10.00000000000000001") = Fin 10
  /\ parseFloat (js "0.1") = Fin (3602879701896397 # 36028797018963968)
  /\ parseFloat (js "9007199254740993") = Fin 9007199254740992
  /\ parseFloat (js "9007199254740995") = Fin 9007199254740996
  /\ parseFloat (js "1.7976931348623158e308")
     = Fin (inject_Z ((2 ^ 53 - 1) * 2 ^ 971))
  /\ parseFloat (js "1.7976931348623159e308") = PosInf
  /\ parseFloat (js "3e-324") = Fin (Qpower 2 (-1074))
  /\ parseFloat (js "2e-324") = Fin 0.
Proof. repeat split; vm_compute; reflexivity. Qed.

(** Two offer prices that differ beyond the precision are the same price:
    neither is removed at a maximum between them in writing, and [sort]
    leaves them in the order of the raw list. *)
Example prices_equal_after_rounding lower :
  let a := product "A" "S/ 300.00000000000000001" "No disponible" "Mifarma" in
  let b := product "B" "S/ 300" "No disponible" "Mifarma" in
  AppTsx.price a = Fin 300
  /\ Part000.price a = Fin 300
  /\ AppTsx.getFilteredProducts lower
       (setProductos (Array [a; b]) initial_state) = Some [a; b]
  /\ Part000.getFilteredProducts lower
       (setProductos (Array [a; b]) initial_state) = Some [a; b].
Proof. repeat split; vm_compute; reflexivity. Qed.

(** C1. The price of [src/App.tsx] is not the first numeric token of the
    offer price when something other than [S/] and white space precedes
    the token: for [Desde S/ 12.50] the token is [12.50], and the price the
    component filters and sorts by is 0.  The comparator of the second
    component reads the price the same way. *)
Theorem price_misses_token_after_text :
  let p := product "Jabon" "Desde S/ 12.50" "No disponible" "Inkafarma" in
  first_numeric_token (Precio_Oferta p) = Some (js "12.50")
  /\ spec_price (Precio_Oferta p) = Fin (25 # 2)
  /\ AppTsx.price p = Fin 0
  /\ Part000.price p = Fin (25 # 2)
  /\ Part000.sort_callback p p = AppTsx.sort_callback p p.
Proof. repeat split; vm_compute; reflexivity. Qed.

(** C2. The second component filters by the first numeric token and sorts
    by another reading of the price, so its output is not ascending in the
    price of its filter: two products at 30.00 and 10.00 whose offer prices
    start with [Desde] stay in the order of the raw list. *)
Theorem sort_ignores_filter_price lower :
  let a := product "A" "Desde S/ 30.00" "No disponible" "Inkafarma" in
  let b := product "B" "Desde S/ 10.00" "No disponible" "Inkafarma" in
  Part000.getFilteredProducts lower
    (setProductos (Array [a; b]) initial_state) = Some [a; b]
  /\ Part000.price a = Fin 30
  /\ Part000.price b = Fin 10
  /\ num_gtb (Part000.price a) (Part000.price b) = true.
Proof. repeat split; vm_compute; reflexivity. Qed.

(** ** The search handler *)

Lemma skip_spaces_all s : forallb is_space s = true -> skip_spaces s = [].
Proof.
  induction s as [|c s IH]; simpl; [reflexivity|].
  intros H. apply andb_true_iff in H. destruct H as [-> H]. auto.
Qed.

(** A keyword that is empty or all white space trims to the empty
    string. *)
Lemma String_trim_blank s : forallb is_space s = true -> String_trim s = [].
Proof.
  intros H. unfold String_trim. rewrite (skip_spaces_all s H). reflexivity.
Qed.

Lemma String_trim_keeps s : String_trim s <> [] -> s <> [].
Proof. intros H ->. apply H. reflexivity. Qed.

(** The second component rejects a blank keyword: an alert, no request,
    the state as it was. *)
Lemma Part000_rejects_blank (st : AppState) :
  forallb is_space (keyword st) = true ->
  Part000.handleSubmit st = Return st [EvAlert Part000.alert_message].
Proof.
  intros H. unfold Part000.handleSubmit.
  rewrite (String_trim_blank _ H). reflexivity.
Qed.

(** C5. [src/App.tsx] tests the keyword for emptiness only: a keyword of
    one space is accepted, the state goes to loading with the results
    emptied, and the request is sent. *)
Theorem blank_keyword_is_sent :
  let st := setKeyword (js " ") initial_state in
  forallb is_space (keyword st) = true
  /\ pending (AppTsx.handleSubmit st)
     = Some (setError None (setProductos (Array []) (setIsLoading true st)))
  /\ (forall res,
        requests (run (AppTsx.handleSubmit st) res).2
        = [EvGet (AppTsx.API_URL ++ js "/buscar_productos?keyword=%20")
             300000])
  /\ Part000.handleSubmit st = Return st [EvAlert Part000.alert_message].
Proof.
  intros st.
  split; [reflexivity|]. split; [reflexivity|]. split; [|reflexivity].
  assert (Hc : forall err,
             requests ([EvGet (AppTsx.API_URL
                                 ++ js "/buscar_productos?keyword=%20") 300000]
                       ++ (AppTsx.catch_clause err
                             (setError None (setProductos (Array [])
                                (setIsLoading true st)))).2)
             = [EvGet (AppTsx.API_URL ++ js "/buscar_productos?keyword=%20")
                  300000])
    by (intros err; reflexivity).
  intros [[s0 [|d]] | err]; [exact (Hc TypeError) | reflexivity |
                             exact (Hc err)].
Qed.

(** When the keyword is accepted and can be encoded, the second component
    stores the field [data] of the body of the response, or the empty array
    when the field is falsy, and clears the loading flag; the error stays
    cleared.  A response without a body ends in the [catch] clause. *)
Lemma Part000_success (st : AppState) resp :
  String_trim (keyword st) <> [] ->
  encodeURIComponent (String_trim (keyword st)) <> None ->
  (run (Part000.handleSubmit st) (Fulfilled resp)).1
  = let st1 :=
      setError None (setProductos (Array []) (setIsLoading true st)) in
    match data resp with
    | NullData => (Part000.catch_clause TypeError st1).1
    | Data d => setIsLoading false (setProductos (array_or_empty d) st1)
    end.
Proof.
  intros Hk He. unfold Part000.handleSubmit.
  apply str_truthy_ne in Hk. cbv zeta. rewrite !Hk. cbn [negb].
  destruct (encodeURIComponent (String_trim (keyword st))); [|congruence].
  unfold run. destruct resp as [s0 [|d]]; cbn [data].
  - destruct (Part000.catch_clause TypeError _). reflexivity.
  - reflexivity.
Qed.

(** C6. [src/App.tsx] stores the field [data] of the response as it is: a
    success response without the field leaves [undefined] in [productos],
    not the empty list, and the projection then throws.  The second
    component stores the empty list. *)
Theorem missing_field_stays_undefined lower :
  let resp := mkResponse 200 (Data Undefined) in
  let st := (run (AppTsx.handleSubmit initial_state) (Fulfilled resp)).1 in
  productos st = Undefined
  /\ isLoading st = false
  /\ error st = None
  /\ AppTsx.getFilteredProducts lower st = None
  /\ productos (run (Part000.handleSubmit initial_state) (Fulfilled resp)).1
     = Array [].
Proof. repeat split; reflexivity. Qed.

(** The error message of the second component tells the three causes
    apart: the timeout message for [ECONNABORTED], a message with the
    status of the response when there is a response, the connection message
    otherwise. *)
Lemma Part000_catch_classifies err (st : AppState) :
  let st' := (Part000.catch_clause err st).1 in
  isLoading st' = false
  /\ productos st' = productos st
  /\ requests (Part000.catch_clause err st).2 = []
  /\ (code_is err ECONNABORTED = true ->
      error st' = Some Part000.timeout_message)
  /\ (code_is err ECONNABORTED = false ->
      forall r, response err = Some r ->
        error st' = Some (Part000.server_message (status r))
        /\ String_includes (Part000.server_message (status r))
             (N_to_string (status r)) = true)
  /\ (code_is err ECONNABORTED = false -> response err = None ->
      error st' = Some Part000.connect_message).
Proof.
  unfold Part000.catch_clause. cbv zeta.
  destruct (code_is err ECONNABORTED) eqn:Ec.
  - split; [reflexivity|]. split; [reflexivity|]. split; [reflexivity|].
    split; [intros _; reflexivity|].
    split; intros H; discriminate H.
  - destruct (response err) as [r|] eqn:Er.
    + split; [reflexivity|]. split; [reflexivity|]. split; [reflexivity|].
      split; [intros H; discriminate H|].
      split; [|intros _ H; discriminate H].
      intros _ r' Hr. injection Hr as <-. split; [reflexivity|].
      apply String_includes_spec. unfold Part000.server_message.
      eexists _, _. reflexivity.
    + split; [reflexivity|]. split; [reflexivity|]. split; [reflexivity|].
      split; [intros H; discriminate H|].
      split; [intros _ r H; discriminate H|].
      intros _ _. reflexivity.
Qed.

(** C7. [src/App.tsx] has one message for every failure that is not a
    timeout: a response with status 500 and a failure without a response
    give the same message, and the status is not in it. *)
Theorem server_error_loses_status :
  let http := mkExn (Some (js "ERR_BAD_RESPONSE"))
                (Some (mkResponse 500 (Data Undefined))) in
  let network := mkExn (Some (js "ERR_NETWORK")) None in
  let st := (run (AppTsx.handleSubmit initial_state) (Rejected http)).1 in
  error st = Some AppTsx.generic_message
  /\ String_includes AppTsx.generic_message (N_to_string 500) = false
  /\ error (run (AppTsx.handleSubmit initial_state) (Rejected network)).1
     = error st
  /\ isLoading st = false
  /\ error (run (Part000.handleSubmit initial_state) (Rejected http)).1
     = Some (Part000.server_message 500).
Proof. repeat split; vm_compute; reflexivity. Qed.

Lemma AppTsx_catch_clears err (st : AppState) :
  isLoading (AppTsx.catch_clause err st).1 = false
  /\ productos (AppTsx.catch_clause err st).1 = productos st
  /\ error (AppTsx.catch_clause err st).1 <> None
  /\ requests (AppTsx.catch_clause err st).2 = [].
Proof.
  unfold AppTsx.catch_clause. cbv zeta.
  destruct (code_is err ECONNABORTED); repeat split; discriminate.
Qed.

Lemma Part000_catch_clears err (st : AppState) :
  isLoading (Part000.catch_clause err st).1 = false
  /\ productos (Part000.catch_clause err st).1 = productos st
  /\ error (Part000.catch_clause err st).1 <> None
  /\ requests (Part000.catch_clause err st).2 = [].
Proof.
  unfold Part000.catch_clause. cbv zeta.
  destruct (code_is err ECONNABORTED); [|destruct (response err)];
    repeat split; discriminate.
Qed.

(** C8. When the keyword is accepted, the state shown while the request
    is pending has the loading flag set and no results; and when the
    attempt fails, the loading flag is cleared, the results are empty, an
    error is set and no second request is made. *)
Theorem fetch_errors_terminal (st : AppState) err :
  String_trim (keyword st) <> [] ->
  (let t := AppTsx.handleSubmit st in
   (forall st1, pending t = Some st1 ->
      isLoading st1 = true /\ productos st1 = Array [])
   /\ isLoading (run t (Rejected err)).1 = false
   /\ productos (run t (Rejected err)).1 = Array []
   /\ error (run t (Rejected err)).1 <> None
   /\ (length (requests (run t (Rejected err)).2) <= 1)%nat)
  /\ (let t := Part000.handleSubmit st in
      (forall st1, pending t = Some st1 ->
         isLoading st1 = true /\ productos st1 = Array [])
      /\ isLoading (run t (Rejected err)).1 = false
      /\ productos (run t (Rejected err)).1 = Array []
      /\ error (run t (Rejected err)).1 <> None
      /\ (length (requests (run t (Rejected err)).2) <= 1)%nat).
Proof.
  intros Hk. pose proof (String_trim_keeps _ Hk) as Hk'.
  apply str_truthy_ne in Hk, Hk'. split.
  - unfold AppTsx.handleSubmit. rewrite Hk'. cbn [negb]. cbv zeta.
    set (st1 := setError None (setProductos (Array []) (setIsLoading true st))).
    destruct (AppTsx_catch_clears URIError st1) as (U1 & U2 & U3 & U4).
    destruct (AppTsx_catch_clears err st1) as (E1 & E2 & E3 & E4).
    destruct (encodeURIComponent (keyword st1)) as [enc|].
    + unfold run, pending.
      destruct (AppTsx.catch_clause err st1) as [st' log'].
      cbn [fst snd] in *. split; [intros ? [= <-]; split; reflexivity|].
      repeat split; auto. unfold requests in *.
      rewrite List.filter_app, E4. cbn. lia.
    + destruct (AppTsx.catch_clause URIError st1) as [st' log'].
      cbn [fst snd run pending] in *. split; [discriminate|].
      repeat split; auto. rewrite U4. cbn. lia.
  - unfold Part000.handleSubmit. cbv zeta. rewrite !Hk. cbn [negb].
    set (st1 := setError None (setProductos (Array []) (setIsLoading true st))).
    destruct (Part000_catch_clears URIError st1) as (U1 & U2 & U3 & U4).
    destruct (Part000_catch_clears err st1) as (E1 & E2 & E3 & E4).
    destruct (encodeURIComponent (String_trim (keyword st))) as [enc|].
    + unfold run, pending.
      destruct (Part000.catch_clause err st1) as [st' log'].
      cbn [fst snd] in *. split; [intros ? [= <-]; split; reflexivity|].
      repeat split; auto. unfold requests in *.
      rewrite List.filter_app, E4. cbn. lia.
    + destruct (Part000.catch_clause URIError st1) as [st' log'].
      cbn [fst snd run pending] in *. split; [discriminate|].
      repeat split; auto. rewrite U4. cbn. lia.
Qed.

Lemma fetch_errors_terminal_witness :
  String_trim (keyword initial_state) <> []
  /\ isLoading
       (run (Part000.handleSubmit initial_state)
          (Rejected (mkExn (Some ECONNABORTED) None))).1 = false.
Proof.
  assert (H : String_trim (keyword initial_state) <> [])
    by (vm_compute; discriminate).
  split; [exact H|].
  apply (fetch_errors_terminal initial_state
           (mkExn (Some ECONNABORTED) None) H).
Defined.

(** ** The projection with its arrays in a store *)

(** [filter] then [sort] on a reference: the result is a new array, the
    variables and every array that was in the store are as before. *)
Lemma filter_sort_m {V} (f : Producto -> bool)
    (cmp : Producto -> Producto -> number) (vars : V)
    (h : gmap nat (list Producto)) a raw :
  h !! a = Some raw ->
  let b := fresh (dom h) in
  let out := Array_sort cmp (Array_filter f raw) in
  ArrayStore.bind (ArrayStore.filter_m f a) (ArrayStore.sort_m cmp) (vars, h)
  = Some (b, (vars, <[b := out]> h))
  /\ h !! b = None
  /\ <[b := out]> h !! a = Some raw.
Proof.
  intros Ha b out.
  assert (Hb : h !! b = None) by (apply not_elem_of_dom, is_fresh).
  assert (Hab : b <> a) by congruence.
  split; [|split; [exact Hb | rewrite lookup_insert_ne; assumption]].
  unfold ArrayStore.bind, ArrayStore.filter_m, ArrayStore.sort_m,
    ArrayStore.bind, ArrayStore.load, ArrayStore.alloc, ArrayStore.store,
    ArrayStore.ret.
  cbn [fst snd]. rewrite Ha. cbn [fst snd]. fold b.
  rewrite lookup_insert_eq. cbn [fst snd].
  rewrite insert_insert_eq. reflexivity.
Qed.

(** C9. The projection is a function of the raw list and the criteria:
    run on a store, it returns a new array whose contents are the value of
    [getFilteredProducts], and leaves the variables and the raw list as they
    were; run again on the store it left, it returns the same contents. *)
Theorem projection_is_pure lower (st : AppState_ ArrayStore.ref)
    (h : gmap nat (list Producto)) a raw :
  productos st = Array a ->
  h !! a = Some raw ->
  (exists b out,
     AppTsx.getFilteredProducts_m lower (st, h)
     = Some (b, (st, <[b := out]> h))
     /\ h !! b = None
     /\ <[b := out]> h !! a = Some raw
     /\ AppTsx.getFilteredProducts lower (with_array (Array raw) st) = Some out
     /\ exists b',
          AppTsx.getFilteredProducts_m lower (st, <[b := out]> h)
          = Some (b', (st, <[b' := out]> (<[b := out]> h)))
          /\ <[b := out]> h !! b' = None)
  /\ (exists b out,
        Part000.getFilteredProducts_m lower (st, h)
        = Some (b, (st, <[b := out]> h))
        /\ h !! b = None
        /\ <[b := out]> h !! a = Some raw
        /\ Part000.getFilteredProducts lower (with_array (Array raw) st)
           = Some out
        /\ exists b',
             Part000.getFilteredProducts_m lower (st, <[b := out]> h)
             = Some (b', (st, <[b' := out]> (<[b := out]> h)))
             /\ <[b := out]> h !! b' = None).
Proof.
  intros Hst Ha. split.
  - destruct (filter_sort_m (AppTsx.filter_callback lower st)
                AppTsx.sort_callback st h a raw Ha) as (R1 & R2 & R3).
    eexists _, _. split; [|split; [exact R2 | split; [exact R3 | split]]].
    + unfold AppTsx.getFilteredProducts_m, ArrayStore.var.
      unfold ArrayStore.bind at 1 2. cbn [fst snd]. rewrite Hst.
      exact R1.
    + reflexivity.
    + destruct (filter_sort_m (AppTsx.filter_callback lower st)
                  AppTsx.sort_callback st _ a raw R3) as (S1 & S2 & _).
      eexists. split; [|exact S2].
      unfold AppTsx.getFilteredProducts_m, ArrayStore.var.
      unfold ArrayStore.bind at 1 2. cbn [fst snd]. rewrite Hst.
      exact S1.
  - destruct (filter_sort_m (Part000.filter_callback lower st)
                Part000.sort_callback st h a raw Ha) as (R1 & R2 & R3).
    eexists _, _. split; [|split; [exact R2 | split; [exact R3 | split]]].
    + unfold Part000.getFilteredProducts_m, ArrayStore.var.
      unfold ArrayStore.bind at 1 2. cbn [fst snd]. rewrite Hst.
      exact R1.
    + reflexivity.
    + destruct (filter_sort_m (Part000.filter_callback lower st)
                  Part000.sort_callback st _ a raw R3) as (S1 & S2 & _).
      eexists. split; [|exact S2].
      unfold Part000.getFilteredProducts_m, ArrayStore.var.
      unfold ArrayStore.bind at 1 2. cbn [fst snd]. rewrite Hst.
      exact S1.
Qed.


Lemma projection_is_pure_witness :
  let raw := [product "B" "S/ 20" "S/ 25" "Mifarma";
              product "A" "S/ 10" "No disponible" "Inkafarma"] in
  let st : AppState_ ArrayStore.ref := with_array (Array 0%nat) initial_state in
  let h : gmap nat (list Producto) := {[ 0%nat := raw ]} in
  productos st = Array 0%nat
  /\ h !! 0%nat = Some raw
  /\ exists b out,
       AppTsx.getFilteredProducts_m toLowerCase_ascii (st, h)
       = Some (b, (st, <[b := out]> h)).
Proof.
  intros raw st h.
  assert (H1 : productos st = Array 0%nat) by reflexivity.
  assert (H2 : h !! 0%nat = Some raw) by reflexivity.
  split; [exact H1|]. split; [exact H2|].
  destruct (projection_is_pure toLowerCase_ascii st h 0%nat raw H1 H2)
    as [(b & out & H & _) _].
  exists b, out. exact H.
Defined.

(** ** The machine *)

Lemma same_inputs_refl st : same_inputs st st.
Proof. repeat split. Qed.

Lemma AppTsx_settles_catch (st : AppState) err :
  isLoading (AppTsx.catch_clause err st).1 = false
  /\ same_inputs st (AppTsx.catch_clause err st).1
  /\ requests (AppTsx.catch_clause err st).2 = []
  /\ productos (AppTsx.catch_clause err st).1 = productos st
  /\ error_truthy (error (AppTsx.catch_clause err st).1) = true.
Proof.
  unfold AppTsx.catch_clause. cbv zeta.
  destruct (code_is err ECONNABORTED); repeat split.
Qed.

Lemma Part000_settles_catch (st : AppState) err :
  isLoading (Part000.catch_clause err st).1 = false
  /\ same_inputs st (Part000.catch_clause err st).1
  /\ requests (Part000.catch_clause err st).2 = []
  /\ productos (Part000.catch_clause err st).1 = productos st
  /\ error_truthy (error (Part000.catch_clause err st).1) = true.
Proof.
  unfold Part000.catch_clause. cbv zeta.
  destruct (code_is err ECONNABORTED); [|destruct (response err)];
    repeat split.
Qed.

Lemma AppTsx_submits : submits (fun v => v) AppTsx.handleSubmit.
Proof.
  intros st. unfold AppTsx.handleSubmit.
  destruct (str_truthy (keyword st)); cbn [negb];
    [|split; [reflexivity | left; reflexivity]].
  cbv zeta.
  set (st1 := setError None (setProductos (Array []) (setIsLoading true st))).
  destruct (encodeURIComponent (keyword st1)) as [enc|].
  - do 4 (split; [reflexivity|]). split; [repeat split|].
    intros [[s0 [|d]]|err] st2.
    + destruct (AppTsx_settles_catch st2 TypeError)
        as (H1 & H2 & H3 & H4 & H5).
      repeat split; try assumption; apply H2.
    + repeat split.
    + destruct (AppTsx_settles_catch st2 err) as (H1 & H2 & H3 & H4 & H5).
      repeat split; try assumption; apply H2.
  - destruct (AppTsx_settles_catch st1 URIError) as (H1 & H2 & H3 & H4 & H5).
    destruct (AppTsx.catch_clause URIError st1) as [st' log].
    cbn [fst snd] in *. split; [exact H3|]. right.
    repeat split; try assumption; apply H2.
Qed.

Lemma Part000_submits : submits array_or_empty Part000.handleSubmit.
Proof.
  intros st. unfold Part000.handleSubmit.
  destruct (str_truthy (String_trim (keyword st))); cbn [negb];
    [|split; [reflexivity | left; reflexivity]].
  cbv zeta.
  set (st1 := setError None (setProductos (Array []) (setIsLoading true st))).
  destruct (encodeURIComponent (String_trim (keyword st))) as [enc|].
  - do 4 (split; [reflexivity|]). split; [repeat split|].
    intros [[s0 [|d]]|err] st2.
    + destruct (Part000_settles_catch st2 TypeError)
        as (H1 & H2 & H3 & H4 & H5).
      repeat split; try assumption; apply H2.
    + repeat split.
    + destruct (Part000_settles_catch st2 err) as (H1 & H2 & H3 & H4 & H5).
      repeat split; try assumption; apply H2.
  - destruct (Part000_settles_catch st1 URIError) as (H1 & H2 & H3 & H4 & H5).
    destruct (Part000.catch_clause URIError st1) as [st' log].
    cbn [fst snd] in *. split; [exact H3|]. right.
    repeat split; try assumption; apply H2.
Qed.

Section Invariant.
Context (store : jsarray -> jsarray) (handleSubmit : AppState -> Task).
Hypothesis handler : submits store handleSubmit.

Lemma coherent_initial : coherent store initial_config.
Proof.
  unfold coherent, initial_config. cbn [current inflight isLoading error
    productos priceFilter pharmacyFilter error_truthy].
  split; [discriminate|]. split; [reflexivity|]. split; [discriminate|].
  split; [discriminate|]. split; [constructor|].
  split; [exists 60%nat; split; [lia | reflexivity] | left; reflexivity].
Qed.

(** An input changes neither the results, the flags nor the pending
    requests. *)
Lemma coherent_input c st' :
  coherent store c ->
  isLoading st' = isLoading (current c) ->
  productos st' = productos (current c) ->
  error st' = error (current c) ->
  (exists n, (n <= 60)%nat /\ priceFilter st' = slider_value n) ->
  In (pharmacyFilter st') pharmacy_options ->
  coherent store (mkConfig st' (inflight c) (history c)).
Proof using Type.
  intros (I1 & I2 & I3 & I4 & I5 & I6 & I7) Hl Hp He Hs Hph.
  unfold coherent. cbn [current inflight]. rewrite Hl, Hp, He.
  repeat split; try assumption; try (apply I3; assumption).
Qed.

Lemma coherent_step a c c' :
  coherent store c -> step handleSubmit a c = Some c' -> coherent store c'.
Proof using handler.
  intros Hc Hstep. pose proof Hc as (I1 & I2 & I3 & I4 & I5 & I6 & I7).
  destruct a as [s | s | s | n | b | | res]; cbn [step] in Hstep.
  - injection Hstep as <-. apply coherent_input; auto.
  - injection Hstep as <-. apply coherent_input; auto.
  - destruct (existsb (str_eqb s) pharmacy_options) eqn:E; [|discriminate].
    injection Hstep as <-. apply coherent_input; auto.
    apply existsb_exists in E. destruct E as (o & Ho & E).
    apply str_eqb_eq in E. subst o. exact Ho.
  - destruct (n <=? 60)%nat eqn:E; [|discriminate].
    injection Hstep as <-. apply coherent_input; auto.
    exists n. split; [apply Nat.leb_le, E | reflexivity].
  - injection Hstep as <-. apply coherent_input; auto.
  - destruct (isLoading (current c)) eqn:El; [discriminate|].
    specialize (I2 eq_refl). pose proof (handler (current c)) as Hh.
    destruct (handleSubmit (current c)) as [st' log | st' log k].
    + injection Hstep as <-. destruct Hh as (_ & [-> | (H1 & H2 & H3 & H4)]).
      * unfold coherent. cbn [current inflight]. rewrite El, I2.
        repeat split; try assumption; try discriminate. constructor.
      * destruct H4 as (_ & _ & Hph & Hpr & _).
        unfold coherent. cbn [current inflight]. rewrite H1, H2, I2.
        rewrite <- Hph, <- Hpr.
        repeat split; try assumption; try discriminate. constructor.
    + injection Hstep as <-.
      destruct Hh as (_ & H1 & H2 & H3 & (_ & _ & Hph & Hpr & _) & Hk).
      unfold coherent. cbn [current inflight]. rewrite H1, H2, H3, I2.
      rewrite <- Hph, <- Hpr. cbn [app error_truthy].
      repeat split; try assumption; try discriminate.
      * intros _. exists k. reflexivity.
      * constructor; [exact Hk | constructor].
  - destruct (inflight c) as [|k ks] eqn:Ei; [discriminate|].
    destruct (isLoading (current c)) eqn:El;
      [|specialize (I2 eq_refl); discriminate].
    destruct (I1 eq_refl) as (k' & [= -> ->]).
    destruct (I3 eq_refl) as (Hp & He).
    apply Forall_cons in I5. destruct I5 as (Hk & _).
    specialize (Hk res (current c)).
    destruct (k' res (current c)) as [st' log'] eqn:E.
    injection Hstep as <-. cbn [fst snd] in Hk.
    destruct Hk as (H1 & (_ & _ & Hph & Hpr & _) & _ & Hres).
    unfold coherent. cbn [current inflight]. rewrite H1.
    rewrite <- Hph, <- Hpr.
    repeat split; try assumption; try discriminate; try constructor.
    intros Ht. destruct res as [[s0 [|d]] | err].
    + destruct Hres as (-> & _). exact Hp.
    + destruct Hres as (_ & He'). rewrite He', He in Ht. discriminate.
    + destruct Hres as (-> & _). exact Hp.
Qed.

Lemma coherent_steps acts c c' :
  coherent store c -> steps handleSubmit acts c = Some c' ->
  coherent store c'.
Proof using handler.
  revert c. induction acts as [|a acts IH]; intros c Hc; cbn [steps].
  - intros [= <-]. exact Hc.
  - destruct (step handleSubmit a c) as [c1|] eqn:E; [|discriminate].
    apply IH. eapply coherent_step; eassumption.
Qed.

Lemma reachable_coherent c : reachable handleSubmit c -> coherent store c.
Proof using handler.
  intros (acts & H). eapply coherent_steps; [apply coherent_initial | exact H].
Qed.

(** When the handler stores an array if the field [data] of the response
    is an array or falsy, then over such responses [productos] is an array
    in every configuration. *)
Lemma array_step a c c' :
  (forall v, array_or_falsy v = true -> is_array (store v)) ->
  typed_action a = true ->
  coherent store c -> is_array (productos (current c)) ->
  step handleSubmit a c = Some c' -> is_array (productos (current c')).
Proof using handler.
  intros Hstore Hty (I1 & I2 & I3 & I4 & I5 & I6 & I7) Ha Hstep.
  destruct a as [s | s | s | n | b | | res]; cbn [step] in Hstep.
  - injection Hstep as <-. exact Ha.
  - injection Hstep as <-. exact Ha.
  - destruct (existsb _ _); [|discriminate]. injection Hstep as <-. exact Ha.
  - destruct (n <=? 60)%nat; [|discriminate]. injection Hstep as <-. exact Ha.
  - injection Hstep as <-. exact Ha.
  - destruct (isLoading (current c)); [discriminate|].
    pose proof (handler (current c)) as Hh.
    destruct (handleSubmit (current c)) as [st' log | st' log k];
      injection Hstep as <-; cbn [current].
    + destruct Hh as (_ & [-> | (_ & -> & _)]); [exact Ha | eexists; eauto].
    + destruct Hh as (_ & _ & -> & _). eexists; eauto.
  - destruct (inflight c) as [|k ks] eqn:Ei; [discriminate|].
    apply Forall_cons in I5. destruct I5 as (Hk & _).
    specialize (Hk res (current c)).
    destruct (k res (current c)) as [st' log'] eqn:E.
    injection Hstep as <-. cbn [fst snd current] in *.
    destruct Hk as (_ & _ & _ & Hres). destruct res as [[s0 [|d]] | err].
    + destruct Hres as (-> & _). exact Ha.
    + destruct Hres as (-> & _). apply Hstore. exact Hty.
    + destruct Hres as (-> & _). exact Ha.
Qed.

Lemma array_steps acts c :
  (forall v, array_or_falsy v = true -> is_array (store v)) ->
  forallb typed_action acts = true ->
  steps handleSubmit acts initial_config = Some c ->
  is_array (productos (current c)).
Proof using handler.
  intros Hstore Hty H.
  assert (G : forall acts c0 c1,
             forallb typed_action acts = true ->
             coherent store c0 -> is_array (productos (current c0)) ->
             steps handleSubmit acts c0 = Some c1 ->
             is_array (productos (current c1))).
  { clear acts Hty H. induction acts as [|a acts IH]; intros c0 c1 Hty Hc Ha;
      cbn [steps].
    - intros [= <-]. exact Ha.
    - cbn [forallb] in Hty. apply andb_true_iff in Hty.
      destruct Hty as (Hty1 & Hty2).
      destruct (step handleSubmit a c0) as [c2|] eqn:E; [|discriminate].
      apply IH; [exact Hty2 | eapply coherent_step | eapply array_step];
        eassumption. }
  eapply G; [exact Hty | apply coherent_initial | | exact H].
  eexists. reflexivity.
Qed.

(** A request is sent by a submission only, and one submission sends at
    most one. *)
Lemma requests_step a c c' :
  coherent store c -> step handleSubmit a c = Some c' ->
  (length (requests (history c'))
   <= length (requests (history c)) + count_submits [a])%nat.
Proof using handler.
  intros (I1 & I2 & I3 & I4 & I5 & I6 & I7) Hstep.
  destruct a as [s | s | s | n | b | | res]; cbn [step] in Hstep;
    cbn [count_submits List.filter length].
  - injection Hstep as <-. cbn [history]. lia.
  - injection Hstep as <-. cbn [history]. lia.
  - destruct (existsb _ _); [|discriminate]. injection Hstep as <-.
    cbn [history]. lia.
  - destruct (n <=? 60)%nat; [|discriminate]. injection Hstep as <-.
    cbn [history]. lia.
  - injection Hstep as <-. cbn [history]. lia.
  - destruct (isLoading (current c)); [discriminate|].
    pose proof (handler (current c)) as Hh.
    destruct (handleSubmit (current c)) as [st' log | st' log k];
      injection Hstep as <-; cbn [history]; unfold requests in *;
      rewrite List.filter_app, length_app.
    + destruct Hh as (-> & _). cbn [length]. lia.
    + destruct Hh as (-> & _). lia.
  - destruct (inflight c) as [|k ks] eqn:Ei; [discriminate|].
    apply Forall_cons in I5. destruct I5 as (Hk & _).
    specialize (Hk res (current c)).
    destruct (k res (current c)) as [st' log'] eqn:E.
    injection Hstep as <-. cbn [fst snd history] in *.
    destruct Hk as (_ & _ & Hr & _). unfold requests in *.
    rewrite List.filter_app, length_app, Hr. cbn [length]. lia.
Qed.

Lemma requests_steps acts c c' :
  coherent store c -> steps handleSubmit acts c = Some c' ->
  (length (requests (history c'))
   <= length (requests (history c)) + count_submits acts)%nat.
Proof using handler.
  revert c. induction acts as [|a acts IH]; intros c Hc; cbn [steps].
  - intros [= <-]. lia.
  - destruct (step handleSubmit a c) as [c1|] eqn:E; [|discriminate].
    intros H. pose proof (requests_step a c c1 Hc E) as H1.
    pose proof (IH c1 (coherent_step a c c1 Hc E) H) as H2.
    unfold count_submits in *. cbn [List.filter] in *.
    destruct a; cbn [length] in *; lia.
Qed.
End Invariant.



Lemma section_exactly_one (loading : bool) (e : option jsstring)
    (rc : ResultsContainer) :
  (loading = true -> e = None) ->
  shows_exactly_one
    (mkResultsSection loading
       (match e with
        | Some msg => if str_truthy msg then Some (js "❌ " ++ msg) else None
        | None => None
        end)
       (if negb loading && negb (error_truthy e) then Some rc else None)).
Proof.
  intros H. unfold shows_exactly_one. cbn [spinner error_state results_container].
  destruct loading.
  - rewrite (H eq_refl). left. repeat split.
  - destruct e as [msg|]; cbn [error_truthy negb andb].
    + destruct (str_truthy msg); cbn [negb].
      * right. left. repeat split. discriminate.
      * right. right. repeat split. discriminate.
    + right. right. repeat split. discriminate.
Qed.

(** X1. In every configuration either component can reach: while
    [isLoading] holds exactly one request is pending, the results are empty
    and there is no error; when it does not hold nothing is pending; and
    while an error is shown the results are empty. *)
Theorem loading_error_results_exclusive (c : Config) :
  reachable AppTsx.handleSubmit c \/ reachable Part000.handleSubmit c ->
  (isLoading (current c) = true ->
     length (inflight c) = 1%nat
     /\ productos (current c) = Array [] /\ error (current c) = None)
  /\ (isLoading (current c) = false -> inflight c = [])
  /\ (error_truthy (error (current c)) = true ->
      isLoading (current c) = false /\ productos (current c) = Array []).
Proof.
  intros H.
  assert (Hc : exists store, coherent store c).
  { destruct H as [H | H].
    - eexists. exact (reachable_coherent _ _ AppTsx_submits c H).
    - eexists. exact (reachable_coherent _ _ Part000_submits c H). }
  destruct Hc as (store & I1 & I2 & I3 & I4 & _).
  split; [|split; [exact I2|]].
  - intros Hl. destruct (I1 Hl) as (k & ->). split; [reflexivity | auto].
  - intros He. split; [|auto].
    destruct (isLoading (current c)) eqn:El; [|reflexivity].
    destruct (I3 eq_refl) as (_ & Hn). rewrite Hn in He. discriminate.
Qed.

Lemma loading_error_results_exclusive_witness :
  exists c,
    reachable Part000.handleSubmit c
    /\ isLoading (current c) = true
    /\ length (inflight c) = 1%nat.
Proof.
  assert (R : exists c, steps Part000.handleSubmit [Submit] initial_config = Some c
                        /\ isLoading (current c) = true).
  { eexists. split; [vm_compute; reflexivity | reflexivity]. }
  destruct R as (c & Hs & Hl).
  assert (Hr : reachable Part000.handleSubmit c) by (exists [Submit]; exact Hs).
  exists c. split; [exact Hr|]. split; [exact Hl|].
  exact (proj1 (proj1 (loading_error_results_exclusive c (or_intror Hr)) Hl)).
Defined.

Lemma array_or_empty_array v :
  array_or_falsy v = true -> is_array (array_or_empty v).
Proof.
  unfold array_or_empty.
  destruct v as [| |l|b|x|s|]; cbn [array_or_falsy truthy negb];
    try (intros _; eexists; reflexivity); try discriminate;
    intros H; apply negb_true_iff in H; rewrite H; eexists; reflexivity.
Qed.

(** X2. In the second component, as long as the field [data] of every
    response with a body is an array or falsy, [productos] is an array in
    every configuration, so the render does not throw; and exactly one of
    the spinner, the error and the results container is rendered. *)
Theorem render_never_throws lower (acts : list Action) (c : Config) :
  steps Part000.handleSubmit acts initial_config = Some c ->
  forallb typed_action acts = true ->
  exists sec,
    Part000Render.results_section lower (current c) = Some sec
    /\ shows_exactly_one sec.
Proof.
  intros H Hty.
  assert (Hr : reachable Part000.handleSubmit c) by (exists acts; exact H).
  pose proof (reachable_coherent _ _ Part000_submits c Hr)
    as (_ & _ & I3 & _).
  destruct (array_steps _ _ Part000_submits acts c array_or_empty_array
              Hty H) as (raw & Hraw).
  unfold Part000Render.results_section, Part000.getFilteredProducts.
  rewrite Hraw. eexists. split; [reflexivity|].
  apply section_exactly_one. intros Hl. apply I3, Hl.
Qed.

Lemma render_never_throws_witness :
  let acts :=
    [Submit;
     Respond (Fulfilled (mkResponse 200 (Data (Array
       [product "Jabon Dove" "S/ 4.50" "S/ 6.00" "Inkafarma"]))));
     TypeKeyword (js "crema"); Submit;
     Respond (Fulfilled (mkResponse 200 (Data Null)))] in
  exists c sec,
    steps Part000.handleSubmit acts initial_config = Some c
    /\ forallb typed_action acts = true
    /\ Part000Render.results_section toLowerCase_ascii (current c) = Some sec
    /\ shows_exactly_one sec.
Proof.
  intros acts.
  assert (R : exists c, steps Part000.handleSubmit acts initial_config = Some c).
  { eexists. vm_compute. reflexivity. }
  destruct R as (c & Hs).
  assert (Hty : forallb typed_action acts = true) by reflexivity.
  destruct (render_never_throws toLowerCase_ascii acts c Hs Hty)
    as (sec & H1 & H2).
  exists c, sec. repeat split; assumption.
Defined.

(** A field [data] that is truthy and not an array is stored as it is,
    and the render then throws. *)
Example render_throws_on_other_data lower :
  exists c,
    steps Part000.handleSubmit
      [Submit; Respond (Fulfilled (mkResponse 200 (Data JObject)))]
      initial_config = Some c
    /\ productos (current c) = JObject
    /\ Part000Render.results_section lower (current c) = None.
Proof. eexists. split; [vm_compute; reflexivity|]. split; reflexivity. Qed.






(** X5. Over any sequence of actions, the requests sent are at most as
    many as the submissions: a request that ends, however it ends, is never
    sent again. *)
Theorem one_request_per_submission (acts : list Action) (c : Config) :
  steps AppTsx.handleSubmit acts initial_config = Some c
  \/ steps Part000.handleSubmit acts initial_config = Some c ->
  (length (requests (history c)) <= count_submits acts)%nat.
Proof.
  intros [H | H].
  - exact (requests_steps _ _ AppTsx_submits acts _ c
             (coherent_initial _) H).
  - exact (requests_steps _ _ Part000_submits acts _ c
             (coherent_initial _) H).
Qed.

Lemma one_request_per_submission_witness :
  exists c,
    steps Part000.handleSubmit
      [Submit; Respond (Rejected (mkExn (Some ECONNABORTED) None))]
      initial_config = Some c
    /\ (length (requests (history c)) <= 1)%nat.
Proof.
  assert (R : exists c,
             steps Part000.handleSubmit
               [Submit; Respond (Rejected (mkExn (Some ECONNABORTED) None))]
               initial_config = Some c).
  { eexists. vm_compute. reflexivity. }
  destruct R as (c & Hs). exists c. split; [exact Hs|].
  exact (one_request_per_submission _ c (or_intror Hs)).
Defined.

Lemma same_inputs_trans a b c :
  same_inputs a b -> same_inputs b c -> same_inputs a c.
Proof.
  intros (A1 & A2 & A3 & A4 & A5) (B1 & B2 & B3 & B4 & B5).
  repeat split; congruence.
Qed.

Lemma run_same_inputs store handleSubmit (st : AppState) res :
  submits store handleSubmit ->
  same_inputs st (run (handleSubmit st) res).1.
Proof.
  intros H. specialize (H st). unfold run.
  destruct (handleSubmit st) as [st' log | st' log k]; cbn [fst].
  - destruct H as (_ & [-> | (_ & _ & _ & H)]);
      [apply same_inputs_refl | exact H].
  - destruct H as (_ & _ & _ & _ & H1 & Hk).
    specialize (Hk res st'). destruct (k res st') as [st2 log2].
    cbn [fst] in *. eapply same_inputs_trans; [exact H1 | apply Hk].
Qed.

(** X6. A submission, however it ends, leaves the keyword and the four
    filters as they were. *)
Theorem submission_keeps_inputs (st : AppState) res :
  same_inputs st (run (AppTsx.handleSubmit st) res).1
  /\ same_inputs st (run (Part000.handleSubmit st) res).1.
Proof.
  split; eapply run_same_inputs; [apply AppTsx_submits | apply Part000_submits].
Qed.

(** ** Filtering and sorting together *)

Section SortAndFilter.
Context {A : Type} (key : A -> number).
Hypothesis key_num : forall a, key a <> NaN.

Lemma key_le_not_Gt x y :
  key_le key x y -> sort_compare (by_key key x y) <> Gt.
Proof using key_num.
  intros H E. apply sort_compare_sub in E; auto.
  apply num_gtb_true_nle in E; auto.
Qed.

Lemma sort_insert_least x l :
  Forall (key_le key x) l -> sort_insert (by_key key) x l = x :: l.
Proof using key_num.
  destruct 1 as [|y l Hy Hl]; [reflexivity|]. cbn [sort_insert].
  pose proof (key_le_not_Gt x y Hy) as E.
  destruct (sort_compare (by_key key x y)); congruence.
Qed.

(** Sorting a sorted list returns it. *)
Lemma Array_sort_sorted_id l :
  StronglySorted (key_le key) l -> Array_sort (by_key key) l = l.
Proof using key_num.
  induction 1 as [|x l Hl IH Hx]; [reflexivity|].
  cbn [Array_sort foldr]. fold (Array_sort (by_key key) l). rewrite IH.
  apply sort_insert_least, Hx.
Qed.

Lemma filter_sort_insert (g : A -> bool) x l :
  StronglySorted (key_le key) l ->
  List.filter g (sort_insert (by_key key) x l)
  = if g x then sort_insert (by_key key) x (List.filter g l)
    else List.filter g l.
Proof using key_num.
  induction 1 as [|y l Hl IH Hy]; cbn [sort_insert].
  - cbn [List.filter]. destruct (g x); reflexivity.
  - assert (Hle : sort_compare (by_key key x y) <> Gt ->
                  List.filter g (x :: y :: l)
                  = if g x then sort_insert (by_key key) x
                                  (List.filter g (y :: l))
                    else List.filter g (y :: l)).
    { intros E.
      change (List.filter g (x :: y :: l))
        with (if g x then x :: List.filter g (y :: l)
              else List.filter g (y :: l)).
      destruct (g x); [|reflexivity]. symmetry. apply sort_insert_least.
      assert (Hxy : key_le key x y).
      { apply num_gtb_false_le; auto. apply not_true_iff_false.
        rewrite <- sort_compare_sub by auto. exact E. }
      apply Forall_forall. intros z Hz.
      apply list_elem_of_In, filter_In in Hz. destruct Hz as ([<- | Hz] & _);
        [exact Hxy|].
      rewrite Forall_forall in Hy. eapply num_le_trans; [exact Hxy|].
      apply Hy, list_elem_of_In, Hz. }
    destruct (sort_compare (by_key key x y)) eqn:E;
      [apply Hle; discriminate | apply Hle; discriminate |].
    cbn [List.filter]. rewrite IH.
    destruct (g y), (g x); cbn [sort_insert]; try rewrite E; reflexivity.
Qed.

(** Filtering the sorted list is sorting the filtered list. *)
Lemma filter_sort_commute (g : A -> bool) l :
  List.filter g (Array_sort (by_key key) l)
  = Array_sort (by_key key) (List.filter g l).
Proof using key_num.
  induction l as [|x l IH]; [reflexivity|].
  cbn [Array_sort foldr List.filter]. fold (Array_sort (by_key key) l).
  rewrite filter_sort_insert by (apply Array_sort_sorted, key_num).
  rewrite IH. destruct (g x); reflexivity.
Qed.
End SortAndFilter.

Lemma List_filter_sublist {A} (f : A -> bool) l : sublist (List.filter f l) l.
Proof.
  induction l as [|x l IH]; cbn [List.filter]; [constructor|].
  destruct (f x); constructor; exact IH.
Qed.

Lemma List_filter_filter {A} (f g : A -> bool) l :
  List.filter f (List.filter g l) = List.filter (fun x => g x && f x) l.
Proof.
  induction l as [|x l IH]; cbn [List.filter]; [reflexivity|].
  destruct (g x); cbn [List.filter andb]; rewrite IH; reflexivity.
Qed.

Lemma List_filter_all {A} (f : A -> bool) l :
  (forall x, In x l -> f x = true) -> List.filter f l = l.
Proof.
  induction l as [|x l IH]; intros H; cbn [List.filter]; [reflexivity|].
  rewrite (H x) by (left; reflexivity). f_equal. apply IH.
  intros y Hy. apply H. right. exact Hy.
Qed.

(** X7. The projection is also the filter applied to the sorted raw list:
    the products that remain are in the order they have in the raw list
    sorted by price, whatever the filters are. *)
Theorem filters_never_reorder lower (st : AppState) raw :
  AppTsx.getFilteredProducts lower (setProductos (Array raw) st)
  = Some (List.filter (AppTsx.filter_callback lower st)
            (Array_sort AppTsx.sort_callback raw))
  /\ Part000.getFilteredProducts lower (setProductos (Array raw) st)
     = Some (List.filter (Part000.filter_callback lower st)
               (Array_sort Part000.sort_callback raw)).
Proof.
  split.
  - rewrite AppTsx_projection. f_equal. symmetry.
    apply (filter_sort_commute AppTsx.price AppTsx_price_not_NaN).
  - rewrite Part000_projection. f_equal. symmetry.
    apply (filter_sort_commute AppTsx.price AppTsx_price_not_NaN).
Qed.

Lemma callback_price_split (g1 g2 g3 g3' g4 : bool) :
  (g3 = true -> g3' = true) ->
  (if g1 then false else if g2 then false else if g3' then false
   else if g4 then false else true)
  = (if g1 then false else if g2 then false else if g3 then false
     else if g4 then false else true) && negb g3'.
Proof.
  intros H. destruct g3'; cbn [negb].
  - destruct g1, g2, g3, g4; reflexivity.
  - destruct g3; [specialize (H eq_refl); discriminate|].
    destruct g1, g2, g4; reflexivity.
Qed.

Lemma num_gtb_mono a q1 q2 :
  a <> NaN -> (q1 <= q2)%Q ->
  num_gtb a (Fin q2) = true -> num_gtb a (Fin q1) = true.
Proof.
  intros Ha Hq H. apply num_gtb_true_nle in H; [|exact Ha|discriminate].
  apply num_gtb_true_nle; [exact Ha|discriminate|].
  intros Hle. apply H. eapply num_le_trans; [exact Hle | exact Hq].
Qed.

(** X8. Lowering the maximum price only removes products: the output for
    the lower maximum is the output for the higher one without the products
    priced above the lower maximum, in the same order. *)
Theorem lower_max_price_only_removes lower (st : AppState) raw q1 q2 :
  (q1 <= q2)%Q ->
  (exists out1 out2,
     AppTsx.getFilteredProducts lower
       (setPriceFilter q1 (setProductos (Array raw) st)) = Some out1
     /\ AppTsx.getFilteredProducts lower
          (setPriceFilter q2 (setProductos (Array raw) st)) = Some out2
     /\ out1 = List.filter
                 (fun p => negb (num_gtb (AppTsx.price p) (Fin q1))) out2
     /\ sublist out1 out2)
  /\ (exists out1 out2,
        Part000.getFilteredProducts lower
          (setPriceFilter q1 (setProductos (Array raw) st)) = Some out1
        /\ Part000.getFilteredProducts lower
             (setPriceFilter q2 (setProductos (Array raw) st)) = Some out2
        /\ out1 = List.filter
                    (fun p => negb (num_gtb (Part000.price p) (Fin q1))) out2
        /\ sublist out1 out2).
Proof.
  intros Hq. split.
  - eexists _, _. split; [reflexivity|]. split; [reflexivity|].
    assert (E : Array_sort AppTsx.sort_callback
                  (Array_filter (AppTsx.filter_callback lower
                     (setPriceFilter q1 (setProductos (Array raw) st))) raw)
                = List.filter
                    (fun p => negb (num_gtb (AppTsx.price p) (Fin q1)))
                    (Array_sort AppTsx.sort_callback
                       (Array_filter (AppTsx.filter_callback lower
                          (setPriceFilter q2 (setProductos (Array raw) st)))
                          raw))).
    { unfold Array_filter.
      change AppTsx.sort_callback with (by_key AppTsx.price).
      rewrite <- !(filter_sort_commute AppTsx.price AppTsx_price_not_NaN).
      rewrite List_filter_filter. apply filter_ext. intros p.
      unfold AppTsx.filter_callback. cbv zeta.
      cbn [nameFilter pharmacyFilter priceFilter offersFilter setPriceFilter].
      apply callback_price_split.
      apply num_gtb_mono; [apply AppTsx_price_not_NaN | exact Hq]. }
    split; [exact E|]. rewrite E. apply List_filter_sublist.
  - eexists _, _. split; [reflexivity|]. split; [reflexivity|].
    assert (E : Array_sort Part000.sort_callback
                  (Array_filter (Part000.filter_callback lower
                     (setPriceFilter q1 (setProductos (Array raw) st))) raw)
                = List.filter
                    (fun p => negb (num_gtb (Part000.price p) (Fin q1)))
                    (Array_sort Part000.sort_callback
                       (Array_filter (Part000.filter_callback lower
                          (setPriceFilter q2 (setProductos (Array raw) st)))
                          raw))).
    { unfold Array_filter.
      change Part000.sort_callback with (by_key AppTsx.price).
      rewrite <- !(filter_sort_commute AppTsx.price AppTsx_price_not_NaN).
      rewrite List_filter_filter. apply filter_ext. intros p.
      unfold Part000.filter_callback. cbv zeta.
      cbn [nameFilter pharmacyFilter priceFilter offersFilter setPriceFilter].
      apply callback_price_split.
      apply num_gtb_mono; [apply Part000_price_not_NaN | exact Hq]. }
    split; [exact E|]. rewrite E. apply List_filter_sublist.
Qed.

Lemma lower_max_price_only_removes_witness :
  let raw := [product "B" "S/ 20" "S/ 25" "Mifarma";
              product "A" "S/ 10" "No disponible" "Inkafarma"] in
  (10 <= 50)%Q
  /\ exists out1 out2,
       AppTsx.getFilteredProducts toLowerCase_ascii
         (setPriceFilter 10 (setProductos (Array raw) initial_state))
       = Some out1
       /\ AppTsx.getFilteredProducts toLowerCase_ascii
            (setPriceFilter 50 (setProductos (Array raw) initial_state))
          = Some out2
       /\ sublist out1 out2.
Proof.
  intros raw.
  assert (H : (10 <= 50)%Q) by (vm_compute; discriminate).
  split; [exact H|].
  destruct (lower_max_price_only_removes toLowerCase_ascii initial_state raw
              10 50 H) as [(out1 & out2 & H1 & H2 & _ & H3) _].
  exists out1, out2. split; [exact H1|]. split; [exact H2 | exact H3].
Defined.

(** X9. Projecting the output of the projection changes nothing. *)
Theorem projection_idempotent lower (st : AppState) raw :
  (exists out,
     AppTsx.getFilteredProducts lower (setProductos (Array raw) st) = Some out
     /\ AppTsx.getFilteredProducts lower (setProductos (Array out) st)
        = Some out)
  /\ (exists out,
        Part000.getFilteredProducts lower (setProductos (Array raw) st)
        = Some out
        /\ Part000.getFilteredProducts lower (setProductos (Array out) st)
           = Some out).
Proof.
  split; eexists; (split; [reflexivity|]).
  - rewrite AppTsx_projection. f_equal.
    rewrite List_filter_all.
    + apply (Array_sort_sorted_id AppTsx.price AppTsx_price_not_NaN).
      apply Array_sort_sorted, AppTsx_price_not_NaN.
    + intros p Hp. apply In_sorted_filter in Hp. tauto.
  - rewrite Part000_projection. f_equal.
    rewrite List_filter_all.
    + apply (Array_sort_sorted_id AppTsx.price AppTsx_price_not_NaN).
      apply Array_sort_sorted, AppTsx_price_not_NaN.
    + intros p Hp. apply In_sorted_filter in Hp. tauto.
Qed.

(** X10. In [src/App.tsx] the output is the filtered list sorted ascending
    by the price the filter compares with the maximum, and products with
    equal prices keep the order they have in the raw list. *)
Theorem AppTsx_sorted_by_filter_price lower (st : AppState) raw :
  exists out,
    AppTsx.getFilteredProducts lower (setProductos (Array raw) st) = Some out
    /\ Permutation out (List.filter (AppTsx.filter_callback lower st) raw)
    /\ StronglySorted
         (fun a b => num_le (AppTsx.price a) (AppTsx.price b)) out
    /\ forall k,
         List.filter (fun p => num_eqb (AppTsx.price p) k) out
         = List.filter (fun p => num_eqb (AppTsx.price p) k)
             (List.filter (AppTsx.filter_callback lower st) raw).
Proof.
  eexists. split; [reflexivity|].
  apply (projection_sorted (AppTsx.filter_callback lower st) raw).
Qed.

(** ** Reading a price *)

Lemma first_numeric_token_skip pre s :
  forallb (fun c => negb (is_digit c)) pre = true ->
  first_numeric_token (pre ++ s) = first_numeric_token s.
Proof.
  induction pre as [|c pre IH]; [reflexivity|]. cbn [forallb app].
  intros H. apply andb_true_iff in H. destruct H as (Hc & H).
  cbn [first_numeric_token]. apply negb_true_iff in Hc. rewrite Hc. auto.
Qed.

Lemma token_head t :
  is_token t -> exists d t', t = d :: t' /\ is_digit d = true.
Proof.
  intros (ip & Hne & Hip & H). destruct ip as [|d ip]; [congruence|].
  cbn [forallb] in Hip. apply andb_true_iff in Hip. destruct Hip as (Hd & _).
  destruct H as [-> | (fp & _ & _ & ->)]; eexists _, _; split; eauto.
Qed.

Lemma span_digits_nondigit s :
  match s with x :: _ => is_digit x = false | [] => True end ->
  span_digits s = ([], s).
Proof. destruct s as [|x s]; [reflexivity|]. cbn. intros ->. reflexivity. Qed.

(** A token followed by something that does not extend it is the token
    read at that place. *)
Lemma numeric_token_at_token t post :
  is_token t -> ends_token t post -> numeric_token_at (t ++ post) = t.
Proof.
  intros (ip & Hne & Hip & H) (Hpost & Hext). unfold numeric_token_at.
  destruct H as [-> | (fp & Hfne & Hfp & ->)].
  - rewrite (span_digits_app ip post Hip Hpost).
    destruct post as [|x post]; [reflexivity|]. cbn [head_is tail].
    destruct (x =? 46) eqn:E; [|reflexivity]. apply N.eqb_eq in E. subst x.
    destruct post as [|d rest]; [reflexivity|].
    rewrite span_digits_nondigit; [reflexivity|].
    apply (Hext Hip d rest eq_refl).
  - rewrite <- app_assoc. cbn [app].
    pose proof (span_digits_app ip (46 :: fp ++ post) Hip eq_refl) as E1.
    pose proof (span_digits_app fp post Hfp Hpost) as E2.
    unfold jsstring, char in *. rewrite E1.
    cbn [head_is tail]. change (46 =? 46) with true. cbv iota.
    rewrite E2. cbn [fst].
    destruct fp; [congruence | reflexivity].
Qed.

Lemma first_numeric_token_found pre t post :
  forallb (fun c => negb (is_digit c)) pre = true ->
  is_token t -> ends_token t post ->
  first_numeric_token (pre ++ t ++ post) = Some t.
Proof.
  intros Hpre Ht He. rewrite first_numeric_token_skip by exact Hpre.
  destruct (token_head t Ht) as (d & t' & E & Hd).
  rewrite <- (numeric_token_at_token t post Ht He) at 2.
  rewrite E. cbn [app first_numeric_token]. rewrite Hd. reflexivity.
Qed.

Lemma filter_price_is_first_token_aux (p : Producto) :
  (forallb (fun c => negb (is_digit c)) (Precio_Oferta p) = true ->
   Part000.price p = Fin 0)
  /\ (forall pre t post,
        Precio_Oferta p = pre ++ t ++ post ->
        forallb (fun c => negb (is_digit c)) pre = true ->
        is_token t -> ends_token t post ->
        Part000.price p = to_double (token_value t)).
Proof.
  rewrite Part000_price_spec. unfold spec_price. split.
  - intros H. apply first_numeric_token_None in H. rewrite H. reflexivity.
  - intros pre t post -> Hpre Ht He.
    rewrite (first_numeric_token_found pre t post Hpre Ht He). reflexivity.
Qed.

(** X11. The price the filter of the second component compares with the
    maximum is 0 when the offer price has no digit; and when the offer
    price is some text without digits, a numeric token and a rest that does
    not extend the token, it is the Number value of the number the token
    denotes: the binary64 value nearest to it, or [Infinity]. *)
Theorem filter_price_is_first_token (p : Producto) :
  (forallb (fun c => negb (is_digit c)) (Precio_Oferta p) = true ->
   Part000.price p = Fin 0)
  /\ (forall pre t post,
        Precio_Oferta p = pre ++ t ++ post ->
        forallb (fun c => negb (is_digit c)) pre = true ->
        is_token t -> ends_token t post ->
        Part000.price p = to_double (token_value t)).
Proof. exact (filter_price_is_first_token_aux p). Qed.

Lemma star_loop_spaces {A} (k : jsstring -> option A) s :
  (forall t, is_Some (k t)) ->
  star_loop is_space k s = k (skip_spaces s).
Proof.
  intros Hk. induction s as [|c s IH]; cbn [star_loop skip_spaces];
    [reflexivity|].
  destruct (is_space c); [|reflexivity].
  rewrite IH. destruct (Hk (skip_spaces s)) as [a ->]. reflexivity.
Qed.

Lemma skip_spaces_suffix_length s : (length (skip_spaces s) <= length s)%nat.
Proof.
  induction s as [|c s IH]; cbn [skip_spaces length]; [lia|].
  destruct (is_space c); cbn [length]; lia.
Qed.

(** An offer price that starts with [S/] loses that prefix and the white
    space after it. *)
Lemma String_replace_soles_head r :
  String_replace (83 :: 47 :: r) re_soles [] = skip_spaces r.
Proof.
  unfold String_replace, re_soles. cbn [rx_exec rx_match].
  change (83 =? 83) with true. change (47 =? 47) with true. cbv iota.
  rewrite star_loop_spaces by eauto. reflexivity.
Qed.

Lemma skip_spaces_idem s : skip_spaces (skip_spaces s) = skip_spaces s.
Proof.
  induction s as [|c s IH]; [reflexivity|]. cbn [skip_spaces].
  destruct (is_space c) eqn:E; [exact IH|]. cbn [skip_spaces]. rewrite E.
  reflexivity.
Qed.

Lemma skip_spaces_app ws s :
  forallb is_space ws = true -> skip_spaces (ws ++ s) = skip_spaces s.
Proof.
  induction ws as [|c ws IH]; [reflexivity|]. cbn [forallb app skip_spaces].
  intros H. apply andb_true_iff in H. destruct H as (-> & H). auto.
Qed.

Lemma parseFloat_skip s : parseFloat (skip_spaces s) = parseFloat s.
Proof. unfold parseFloat. rewrite skip_spaces_idem. reflexivity. Qed.

Lemma parseFloat_spaces ws s :
  forallb is_space ws = true -> parseFloat (ws ++ s) = parseFloat s.
Proof.
  intros H. unfold parseFloat. rewrite skip_spaces_app by exact H.
  reflexivity.
Qed.

Lemma exponent_part_plain post : plain_end post -> exponent_part post = 0%Z.
Proof.
  destruct post as [|c post]; [reflexivity|]. intros (_ & _ & H1 & H2).
  cbn [exponent_part]. apply N.eqb_neq in H1, H2. rewrite H1, H2.
  reflexivity.
Qed.

Lemma head_is_plain post : plain_end post -> head_is 46 post = false.
Proof.
  destruct post as [|c post]; [reflexivity|]. intros (_ & H & _).
  cbn [head_is]. apply N.eqb_neq, H.
Qed.

Lemma plain_end_nondigit post :
  plain_end post ->
  match post with x :: _ => is_digit x = false | [] => True end.
Proof. destruct post; [auto|]. intros (H & _). exact H. Qed.

Lemma plain_end_ends t post : plain_end post -> ends_token t post.
Proof.
  intros H. split; [apply plain_end_nondigit, H|].
  intros _ d rest ->. destruct H as (_ & H & _). congruence.
Qed.

(** [parseFloat] reads a token followed by a plain end as the Number value
    of the number the token denotes. *)
Lemma parseFloat_token_plain t post :
  is_token t -> plain_end post ->
  parseFloat (t ++ post) = to_double (token_value t).
Proof.
  intros (ip & Hne & Hip & H) Hp.
  destruct ip as [|d ip]; [congruence|].
  assert (Hd : is_digit d = true).
  { cbn [forallb] in Hip. apply andb_true_iff in Hip. tauto. }
  pose proof (plain_end_nondigit post Hp) as Hn.
  destruct H as [-> | (fp & Hfne & Hfp & ->)].
  - cbn [app]. rewrite parseFloat_digits_head by exact Hd.
    change (d :: ip ++ post) with ((d :: ip) ++ post).
    rewrite (span_digits_app (d :: ip) post Hip Hn).
    rewrite (head_is_plain post Hp), (exponent_part_plain post Hp).
    unfold token_value.
    pose proof (span_digits_app (d :: ip) [] Hip I) as E.
    rewrite app_nil_r in E. rewrite E. rewrite decimal_int. reflexivity.
  - rewrite <- app_assoc. cbn [app].
    rewrite parseFloat_digits_head by exact Hd.
    change (d :: ip ++ 46 :: fp ++ post) with ((d :: ip) ++ 46 :: fp ++ post).
    rewrite (span_digits_app (d :: ip) (46 :: fp ++ post) Hip eq_refl).
    cbn [head_is tail]. change (46 =? 46) with true. cbv iota.
    rewrite (span_digits_app fp post Hfp Hn).
    rewrite (exponent_part_plain post Hp).
    unfold token_value.
    pose proof (span_digits_app (d :: ip) (46 :: fp) Hip eq_refl) as E.
    cbn [app] in E. rewrite E.
    change (d :: ip ++ fp) with ((d :: ip) ++ fp).
    rewrite digits_val_app, decimal_fraction.
    destruct fp; [congruence | reflexivity].
Qed.

Lemma num_or_zero_Qred q : num_or_zero (Fin (Qred q)) = Fin (Qred q).
Proof.
  unfold num_or_zero. cbn [num_truthy].
  destruct (Qeq_bool (Qred q) 0) eqn:E; [|reflexivity]. cbn [negb].
  apply Qeq_bool_iff in E. rewrite Qred_correct in E.
  rewrite (Qred_complete q 0 E). reflexivity.
Qed.

Lemma num_or_zero_to_double q : num_or_zero (to_double q) = to_double q.
Proof.
  destruct (to_double_cases q) as [-> | [-> | (q' & ->)]];
    [reflexivity | reflexivity | apply num_or_zero_Qred].
Qed.

Lemma usual_offer_prices p :
  usual_offer (Precio_Oferta p) ->
  exists t, is_token t
    /\ first_numeric_token (Precio_Oferta p) = Some t
    /\ AppTsx.price p = to_double (token_value t)
    /\ Part000.price p = to_double (token_value t).
Proof.
  intros (ws & t & post & E & Hws & Ht & Hp). exists t. split; [exact Ht|].
  assert (Hpre : forallb (fun c => negb (is_digit c)) (js "S/" ++ ws) = true).
  { change (js "S/" ++ ws) with (83 :: 47 :: ws). cbn [forallb].
    change (negb (is_digit 83)) with true.
    change (negb (is_digit 47)) with true. cbn [andb].
    clear -Hws. induction ws as [|c ws IH]; [reflexivity|].
    cbn [forallb] in *. apply andb_true_iff in Hws.
    destruct Hws as (Hc & Hws). rewrite (IH Hws), andb_true_r.
    apply negb_true_iff.
    destruct (is_digit c) eqn:Ed; [|reflexivity].
    destruct (digit_not_special c Ed) as (Hs & _). congruence. }
  assert (E' : Precio_Oferta p = (js "S/" ++ ws) ++ t ++ post)
    by (rewrite E, <- app_assoc; reflexivity).
  split; [|split].
  - rewrite E'. apply first_numeric_token_found;
      [exact Hpre | exact Ht | apply plain_end_ends, Hp].
  - unfold AppTsx.price. rewrite E.
    change (js "S/" ++ ws ++ t ++ post) with (83 :: 47 :: ws ++ t ++ post).
    rewrite String_replace_soles_head, parseFloat_skip.
    rewrite parseFloat_spaces by exact Hws.
    rewrite (parseFloat_token_plain t post Ht Hp).
    apply num_or_zero_to_double.
  - apply (proj2 (filter_price_is_first_token_aux p) (js "S/" ++ ws) t post).
    + exact E'.
    + exact Hpre.
    + exact Ht.
    + apply plain_end_ends, Hp.
Qed.

Lemma prices_agree_aux (p : Producto) :
  usual_offer (Precio_Oferta p) -> AppTsx.price p = Part000.price p.
Proof.
  intros H. destruct (usual_offer_prices p H) as (t & _ & _ & H1 & H2).
  congruence.
Qed.

(** X12. On an offer price of the usual form, [S/], white space, a numeric
    token and a rest that does not start with a digit, a point or an
    exponent letter, both components read the same price, and it is the
    Number value of the first numeric token. *)
Theorem prices_agree_on_usual_offers (p : Producto) :
  usual_offer (Precio_Oferta p) ->
  AppTsx.price p = Part000.price p
  /\ exists t,
       first_numeric_token (Precio_Oferta p) = Some t
       /\ AppTsx.price p = to_double (token_value t).
Proof.
  intros H. destruct (usual_offer_prices p H) as (t & _ & Hf & H1 & H2).
  split; [congruence|]. exists t. split; assumption.
Qed.

Lemma usual_offer_example : usual_offer (js "S/ 12.50").
Proof.
  exists [32], (js "12.50"), []. split; [reflexivity|].
  split; [reflexivity|]. split; [|exact I].
  exists (js "12"). split; [discriminate|]. split; [reflexivity|].
  right. exists (js "50"). split; [discriminate|]. split; reflexivity.
Qed.

Lemma prices_agree_on_usual_offers_witness :
  let p := product "Jabon" "S/ 12.50" "No disponible" "Inkafarma" in
  usual_offer (Precio_Oferta p)
  /\ AppTsx.price p = Part000.price p
  /\ exists t,
       first_numeric_token (Precio_Oferta p) = Some t
       /\ AppTsx.price p = to_double (token_value t).
Proof.
  intros p.
  assert (H : usual_offer (Precio_Oferta p)) by exact usual_offer_example.
  split; [exact H|]. exact (prices_agree_on_usual_offers p H).
Defined.

Lemma StronglySorted_agree {A} (R R' : A -> A -> Prop) l :
  (forall a b, In a l -> In b l -> R a b -> R' a b) ->
  StronglySorted R l -> StronglySorted R' l.
Proof.
  intros H Hs. induction Hs as [|x l Hs IH Hx]; [constructor|].
  constructor.
  - apply IH. intros a b Ha Hb. apply H; right; assumption.
  - rewrite Forall_forall in *. intros y Hy. apply H.
    + left. reflexivity.
    + right. apply list_elem_of_In, Hy.
    + apply Hx, Hy.
Qed.

(** X13. When every offer price of the raw list has the usual form, the
    output of the second component is sorted ascending by the price its
    filter compares with the maximum, and products with equal prices keep
    the order they have in the raw list. *)
Theorem Part000_sorted_on_usual_offers lower (st : AppState) raw :
  (forall p, In p raw -> usual_offer (Precio_Oferta p)) ->
  exists out,
    Part000.getFilteredProducts lower (setProductos (Array raw) st) = Some out
    /\ StronglySorted
         (fun a b => num_le (Part000.price a) (Part000.price b)) out
    /\ forall k,
         List.filter (fun p => num_eqb (Part000.price p) k) out
         = List.filter (fun p => num_eqb (Part000.price p) k)
             (List.filter (Part000.filter_callback lower st) raw).
Proof.
  intros Hraw.
  exists (Array_sort (by_key AppTsx.price)
            (List.filter (Part000.filter_callback lower st) raw)).
  split; [reflexivity|].
  destruct (projection_sorted (Part000.filter_callback lower st) raw)
    as (Hperm & Hsorted & Hstable).
  set (out := Array_sort (by_key AppTsx.price)
                (List.filter (Part000.filter_callback lower st) raw)) in *.
  assert (Hin : forall p, In p out -> AppTsx.price p = Part000.price p).
  { intros p Hp. apply prices_agree_aux, Hraw.
    apply (Permutation_in _ Hperm) in Hp. apply filter_In in Hp. tauto. }
  split.
  - eapply StronglySorted_agree; [|exact Hsorted].
    intros a b Ha Hb. unfold key_le. rewrite (Hin a Ha), (Hin b Hb). auto.
  - intros k.
    rewrite <- (filter_ext_in (fun p => num_eqb (AppTsx.price p) k)
                  (fun p => num_eqb (Part000.price p) k) out)
      by (intros p Hp; rewrite (Hin p Hp); reflexivity).
    rewrite Hstable. apply filter_ext_in. intros p Hp.
    apply filter_In in Hp. rewrite (prices_agree_aux p); [reflexivity|].
    apply Hraw. tauto.
Qed.

Lemma Part000_sorted_on_usual_offers_witness :
  let raw := [product "B" "S/ 20.00" "S/ 25" "Mifarma";
              product "A" "S/ 12.50" "No disponible" "Inkafarma"] in
  (forall p, In p raw -> usual_offer (Precio_Oferta p))
  /\ exists out,
       Part000.getFilteredProducts toLowerCase_ascii
         (setProductos (Array raw) initial_state) = Some out
       /\ StronglySorted
            (fun a b => num_le (Part000.price a) (Part000.price b)) out.
Proof.
  intros raw.
  assert (H : forall p, In p raw -> usual_offer (Precio_Oferta p)).
  { intros p [<- | [<- | []]].
    - exists [32], (js "20.00"), []. split; [reflexivity|].
      split; [reflexivity|]. split; [|exact I].
      exists (js "20"). split; [discriminate|]. split; [reflexivity|].
      right. exists (js "00"). split; [discriminate|]. split; reflexivity.
    - exact usual_offer_example. }
  split; [exact H|].
  destruct (Part000_sorted_on_usual_offers toLowerCase_ascii initial_state
              raw H) as (out & H1 & H2 & _).
  exists out. split; [exact H1 | exact H2].
Defined.

(** ** The keyword of a submission *)

Lemma skip_spaces_nil_iff s :
  skip_spaces s = [] <-> forallb is_space s = true.
Proof.
  induction s as [|c s IH]; cbn [skip_spaces forallb]; [tauto|].
  destruct (is_space c); cbn [andb]; [exact IH|].
  split; discriminate.
Qed.

Lemma skip_spaces_head s c r : skip_spaces s = c :: r -> is_space c = false.
Proof.
  induction s as [|x s IH]; cbn [skip_spaces]; [discriminate|].
  destruct (is_space x) eqn:E; [exact IH|]. intros [= <- _]. exact E.
Qed.

Lemma forallb_rev {A} (f : A -> bool) l :
  forallb f (rev l) = forallb f l.
Proof.
  induction l as [|x l IH]; [reflexivity|]. cbn [rev forallb].
  rewrite forallb_app, IH. cbn [forallb]. rewrite andb_true_r.
  apply andb_comm.
Qed.

(** [trim] gives the empty string exactly on the strings that are all
    white space. *)
Lemma String_trim_nil_iff s :
  String_trim s = [] <-> forallb is_space s = true.
Proof.
  split; [|apply String_trim_blank].
  unfold String_trim. intros H.
  assert (H1 : skip_spaces (rev (skip_spaces s)) = []).
  { destruct (skip_spaces (rev (skip_spaces s))); [reflexivity|].
    apply (f_equal (@length _)) in H. rewrite length_rev in H.
    discriminate H. }
  apply skip_spaces_nil_iff in H1. rewrite forallb_rev in H1.
  apply skip_spaces_nil_iff.
  destruct (skip_spaces s) as [|c r] eqn:E; [reflexivity|].
  pose proof (skip_spaces_head s c r E) as Hc.
  cbn [forallb] in H1. rewrite Hc in H1. discriminate H1.
Qed.

Lemma skip_spaces_app_r s r :
  skip_spaces s <> [] -> skip_spaces (s ++ r) = skip_spaces s ++ r.
Proof.
  induction s as [|c s IH]; cbn [skip_spaces app]; [congruence|].
  destruct (is_space c); [exact IH | reflexivity].
Qed.

(** White space around a string does not change what [trim] returns. *)
Lemma String_trim_padding ws1 s ws2 :
  forallb is_space ws1 = true -> forallb is_space ws2 = true ->
  String_trim (ws1 ++ s ++ ws2) = String_trim s.
Proof.
  intros H1 H2. unfold String_trim. rewrite skip_spaces_app by exact H1.
  destruct (skip_spaces s) as [|c r] eqn:E.
  - assert (Hs : forallb is_space (s ++ ws2) = true).
    { rewrite forallb_app, H2. apply skip_spaces_nil_iff in E. rewrite E.
      reflexivity. }
    apply skip_spaces_nil_iff in Hs. rewrite Hs. reflexivity.
  - rewrite skip_spaces_app_r by (rewrite E; discriminate). rewrite E.
    rewrite rev_app_distr, skip_spaces_app
      by (rewrite forallb_rev; exact H2).
    reflexivity.
Qed.

(** X14. The second component answers a submission with the alert alone,
    leaving the state as it was, exactly when the keyword is empty or all
    white space; [src/App.tsx] does so exactly when the keyword is
    empty. *)
Theorem alert_only_iff_blank (st : AppState) :
  (Part000.handleSubmit st = Return st [EvAlert Part000.alert_message]
   <-> forallb is_space (keyword st) = true)
  /\ (AppTsx.handleSubmit st = Return st [EvAlert AppTsx.alert_message]
      <-> keyword st = []).
Proof.
  split; split.
  - unfold Part000.handleSubmit. cbv zeta.
    destruct (str_truthy (String_trim (keyword st))) eqn:E; cbn [negb].
    + destruct (encodeURIComponent (String_trim (keyword st)));
        [discriminate|].
      unfold Part000.catch_clause. cbv zeta. intros H. discriminate H.
    + intros _. apply String_trim_nil_iff.
      destruct (String_trim (keyword st)); [reflexivity | discriminate].
  - apply Part000_rejects_blank.
  - unfold AppTsx.handleSubmit.
    destruct (str_truthy (keyword st)) eqn:E; cbn [negb].
    + cbv zeta.
      destruct (encodeURIComponent _); [discriminate|].
      unfold AppTsx.catch_clause. cbv zeta. intros H. discriminate H.
    + intros _. destruct (keyword st); [reflexivity | discriminate].
  - intros H. unfold AppTsx.handleSubmit. rewrite H. reflexivity.
Qed.

Lemma forallb_skip_spaces (f : char -> bool) s :
  forallb f s = true -> forallb f (skip_spaces s) = true.
Proof.
  induction s as [|c s IH]; [auto|]. cbn [skip_spaces].
  destruct (is_space c); [|auto]. cbn [forallb]. intros H.
  apply andb_true_iff in H. tauto.
Qed.

Lemma forallb_String_trim (f : char -> bool) s :
  forallb f s = true -> forallb f (String_trim s) = true.
Proof.
  intros H. unfold String_trim. rewrite forallb_rev.
  apply forallb_skip_spaces. rewrite forallb_rev.
  apply forallb_skip_spaces, H.
Qed.

(** A string without surrogates can be encoded. *)
Lemma encodeURIComponent_total s :
  forallb not_surrogate s = true -> is_Some (encodeURIComponent s).
Proof.
  induction s as [|c s IH]; [eexists; reflexivity|].
  cbn [forallb]. intros H. apply andb_true_iff in H. destruct H as (Hc & H).
  destruct (IH H) as (e & He). unfold not_surrogate in Hc.
  apply negb_true_iff, orb_false_iff in Hc. destruct Hc as (Hh & Hl).
  cbn [encodeURIComponent]. rewrite Hh, Hl, He.
  destruct (uri_unreserved c); eexists; reflexivity.
Qed.

Lemma Part000_request (st : AppState) enc res :
  String_trim (keyword st) <> [] ->
  encodeURIComponent (String_trim (keyword st)) = Some enc ->
  requests (run (Part000.handleSubmit st) res).2
  = [EvGet (Part000.API_URL ++ js "/buscar_productos?keyword=" ++ enc)
       300000].
Proof.
  intros Hk He. unfold Part000.handleSubmit.
  apply str_truthy_ne in Hk. cbv zeta. rewrite !Hk. cbn [negb]. rewrite He.
  unfold run.
  set (st1 := setError None (setProductos (Array []) (setIsLoading true st))).
  assert (Hc : forall err,
             requests
               (let '(st', log') := Part000.catch_clause err st1 in
                (st', [EvGet (Part000.API_URL
                                ++ js "/buscar_productos?keyword=" ++ enc)
                         300000] ++ log')).2
             = [EvGet (Part000.API_URL ++ js "/buscar_productos?keyword="
                         ++ enc) 300000]).
  { intros err. destruct (Part000_settles_catch st1 err) as (_ & _ & H & _).
    destruct (Part000.catch_clause err st1) as [st' log'].
    cbn [snd] in *. unfold requests in *. rewrite List.filter_app, H.
    reflexivity. }
  destruct res as [[s0 [|d]] | err]; cbn [data].
  - exact (Hc TypeError).
  - reflexivity.
  - exact (Hc err).
Qed.

(** X15. For a keyword that is not blank and holds no surrogate, the second
    component sends exactly one request, to the search path with the
    trimmed keyword encoded and a timeout of 300000 ms, however the request
    ends; and white space around the keyword does not change the
    request. *)
Theorem request_carries_trimmed_keyword (st : AppState) res ws1 ws2 :
  String_trim (keyword st) <> [] ->
  forallb not_surrogate (keyword st) = true ->
  forallb is_space ws1 = true -> forallb is_space ws2 = true ->
  exists enc,
    encodeURIComponent (String_trim (keyword st)) = Some enc
    /\ requests (run (Part000.handleSubmit st) res).2
       = [EvGet (Part000.API_URL ++ js "/buscar_productos?keyword=" ++ enc)
            300000]
    /\ requests
         (run (Part000.handleSubmit
                 (setKeyword (ws1 ++ keyword st ++ ws2) st)) res).2
       = requests (run (Part000.handleSubmit st) res).2.
Proof.
  intros Hk Hs H1 H2.
  destruct (encodeURIComponent_total (String_trim (keyword st))
              (forallb_String_trim _ _ Hs)) as (enc & He).
  exists enc. split; [exact He|].
  rewrite (Part000_request st enc res Hk He). split; [reflexivity|].
  apply Part000_request; cbn [keyword setKeyword];
    rewrite String_trim_padding by assumption; assumption.
Qed.

Lemma request_carries_trimmed_keyword_witness :
  exists enc,
    encodeURIComponent (String_trim (keyword initial_state)) = Some enc
    /\ requests
         (run (Part000.handleSubmit initial_state)
            (Rejected (mkExn None None))).2
       = [EvGet (Part000.API_URL ++ js "/buscar_productos?keyword=" ++ enc)
            300000].
Proof.
  assert (Hk : String_trim (keyword initial_state) <> [])
    by (vm_compute; discriminate).
  assert (Hs : forallb not_surrogate (keyword initial_state) = true)
    by reflexivity.
  destruct (request_carries_trimmed_keyword initial_state
              (Rejected (mkExn None None)) [32] [32; 9] Hk Hs eq_refl eq_refl)
    as (enc & He & Hr & _).
  exists enc. split; [exact He | exact Hr].
Defined.

(** X16. In the second component, when the request of an accepted keyword
    is answered, the loading flag is cleared.  With a body, the results are
    the field [data] of the body when it is truthy, so the array when it is
    one, and the empty array when it is falsy, and the error stays cleared.
    Without a body reading the field throws inside [try]: the [catch]
    clause leaves the connection message and the results empty. *)
Theorem response_array_or_empty (st : AppState) resp :
  String_trim (keyword st) <> [] ->
  encodeURIComponent (String_trim (keyword st)) <> None ->
  let st' := (run (Part000.handleSubmit st) (Fulfilled resp)).1 in
  isLoading st' = false
  /\ match data resp with
     | NullData =>
         productos st' = Array []
         /\ error st' = Some Part000.connect_message
     | Data d =>
         error st' = None
         /\ (forall l, d = Array l -> productos st' = Array l)
         /\ (truthy d = true -> productos st' = d)
         /\ (truthy d = false -> productos st' = Array [])
     end.
Proof.
  intros Hk He st'. unfold st'. rewrite (Part000_success st resp Hk He).
  cbv zeta. destruct (data resp) as [|d].
  - split; [reflexivity|]. split; reflexivity.
  - cbn [isLoading error productos setIsLoading setProductos setError].
    split; [reflexivity|]. split; [reflexivity|]. unfold array_or_empty.
    split; [|split].
    + intros l ->. reflexivity.
    + intros ->. reflexivity.
    + intros ->. reflexivity.
Qed.

Lemma response_array_or_empty_witness :
  String_trim (keyword initial_state) <> []
  /\ encodeURIComponent (String_trim (keyword initial_state)) <> None
  /\ productos
       (run (Part000.handleSubmit initial_state)
          (Fulfilled (mkResponse 200 NullData))).1 = Array []
  /\ error
       (run (Part000.handleSubmit initial_state)
          (Fulfilled (mkResponse 200 NullData))).1
     = Some Part000.connect_message.
Proof.
  assert (Hk : String_trim (keyword initial_state) <> [])
    by (vm_compute; discriminate).
  assert (He : encodeURIComponent (String_trim (keyword initial_state))
               <> None) by (vm_compute; discriminate).
  split; [exact Hk|]. split; [exact He|].
  exact (proj2 (response_array_or_empty initial_state
                  (mkResponse 200 NullData) Hk He)).
Defined.

Lemma Part000_run_rejected (st : AppState) err :
  String_trim (keyword st) <> [] ->
  encodeURIComponent (String_trim (keyword st)) <> None ->
  (run (Part000.handleSubmit st) (Rejected err)).1
  = (Part000.catch_clause err
       (setError None (setProductos (Array []) (setIsLoading true st)))).1.
Proof.
  intros Hk He. unfold Part000.handleSubmit.
  apply str_truthy_ne in Hk. cbv zeta. rewrite !Hk. cbn [negb].
  destruct (encodeURIComponent (String_trim (keyword st))); [|congruence].
  unfold run.
  destruct (Part000.catch_clause err _) as [st' log']. reflexivity.
Qed.

Lemma server_message_head n : head (Part000.server_message n) = Some 69.
Proof. reflexivity. Qed.

(** X17. In the second component a rejected request leaves one of three
    messages: the timeout message when the code is [ECONNABORTED], else the
    server message with the status when there is a response, else the
    connection message.  The three differ from each other whatever the
    status is, and the server message contains the digits of the
    status. *)
Theorem rejection_message_by_cause (st : AppState) err :
  String_trim (keyword st) <> [] ->
  encodeURIComponent (String_trim (keyword st)) <> None ->
  error (run (Part000.handleSubmit st) (Rejected err)).1
  = Some (if code_is err ECONNABORTED then Part000.timeout_message
          else match response err with
               | Some r => Part000.server_message (status r)
               | None => Part000.connect_message
               end)
  /\ Part000.timeout_message <> Part000.connect_message
  /\ (forall n,
        Part000.server_message n <> Part000.timeout_message
        /\ Part000.server_message n <> Part000.connect_message
        /\ String_includes (Part000.server_message n) (N_to_string n) = true).
Proof.
  intros Hk He. split; [|split].
  - rewrite (Part000_run_rejected st err Hk He).
    unfold Part000.catch_clause. cbv zeta.
    destruct (code_is err ECONNABORTED); [reflexivity|].
    destruct (response err); reflexivity.
  - intros H. apply (f_equal head) in H. vm_compute in H. discriminate H.
  - intros n. split; [|split].
    + intros H. apply (f_equal head) in H. rewrite server_message_head in H.
      vm_compute in H. discriminate H.
    + intros H. apply (f_equal head) in H. rewrite server_message_head in H.
      vm_compute in H. discriminate H.
    + apply String_includes_spec. eexists _, _. reflexivity.
Qed.

Lemma rejection_message_by_cause_witness :
  String_trim (keyword initial_state) <> []
  /\ encodeURIComponent (String_trim (keyword initial_state)) <> None
  /\ error
       (run (Part000.handleSubmit initial_state)
          (Rejected (mkExn (Some (js "ERR_BAD_RESPONSE"))
                       (Some (mkResponse 503 (Data Undefined)))))).1
     = Some (Part000.server_message 503).
Proof.
  assert (Hk : String_trim (keyword initial_state) <> [])
    by (vm_compute; discriminate).
  assert (He : encodeURIComponent (String_trim (keyword initial_state))
               <> None) by (vm_compute; discriminate).
  split; [exact Hk|]. split; [exact He|].
  exact (proj1 (rejection_message_by_cause initial_state
                  (mkExn (Some (js "ERR_BAD_RESPONSE"))
                     (Some (mkResponse 503 (Data Undefined)))) Hk He)).
Defined.

(** X18. A keyword that cannot be encoded, because a surrogate in it has
    no partner, makes [encodeURIComponent] throw inside the [try]: no
    request is sent, and the handler ends at once with the loading flag
    cleared, the results emptied and the message of a failure without
    response. *)
Theorem unencodable_keyword_sends_nothing (st : AppState) res :
  String_trim (keyword st) <> [] ->
  encodeURIComponent (String_trim (keyword st)) = None ->
  encodeURIComponent (keyword st) = None ->
  (pending (Part000.handleSubmit st) = None
   /\ requests (run (Part000.handleSubmit st) res).2 = []
   /\ (run (Part000.handleSubmit st) res).1
      = setIsLoading false
          (setError (Some Part000.connect_message)
             (setProductos (Array []) st)))
  /\ (pending (AppTsx.handleSubmit st) = None
      /\ requests (run (AppTsx.handleSubmit st) res).2 = []
      /\ (run (AppTsx.handleSubmit st) res).1
         = setIsLoading false
             (setError (Some AppTsx.generic_message)
                (setProductos (Array []) st))).
Proof.
  intros Hk He He'. pose proof (String_trim_keeps _ Hk) as Hk'.
  apply str_truthy_ne in Hk, Hk'. split.
  - unfold Part000.handleSubmit. cbv zeta. rewrite !Hk. cbn [negb].
    rewrite He. repeat split.
  - unfold AppTsx.handleSubmit. cbv zeta. rewrite !Hk'. cbn [negb].
    cbn [keyword setError setProductos setIsLoading]. rewrite He'.
    repeat split.
Qed.

Lemma unencodable_keyword_sends_nothing_witness :
  let st := setKeyword [55296] initial_state in
  String_trim (keyword st) <> []
  /\ encodeURIComponent (String_trim (keyword st)) = None
  /\ requests
       (run (Part000.handleSubmit st) (Fulfilled (mkResponse 200 (Data Undefined)))).2
     = [].
Proof.
  intros st.
  assert (Hk : String_trim (keyword st) <> []) by (vm_compute; discriminate).
  assert (He : encodeURIComponent (String_trim (keyword st)) = None)
    by reflexivity.
  assert (He' : encodeURIComponent (keyword st) = None) by reflexivity.
  split; [exact Hk|]. split; [exact He|].
  exact (proj1 (proj2 (proj1
           (unencodable_keyword_sends_nothing st
              (Fulfilled (mkResponse 200 (Data Undefined))) Hk He He')))).
Defined.

(** ** The results section *)

Lemma AppTsx_container lower (st : AppState) sec rc :
  AppTsxRender.results_section lower st = Some sec ->
  results_container sec = Some rc ->
  exists raw,
    productos st = Array raw
    /\ isLoading st = false /\ error_truthy (error st) = false
    /\ let out := Array_sort (by_key AppTsx.price)
                    (List.filter (AppTsx.filter_callback lower st) raw) in
       rc = mkResultsContainer
              (N_to_string (N.of_nat (length out))
                 ++ js " productos encontrados")
              (if (length out =? 0)%nat && (0 <? length raw)%nat
               then [NoResultsNotice] else [])
              (map product_card out).
Proof.
  unfold AppTsxRender.results_section, AppTsx.getFilteredProducts.
  destruct (productos st) as [| |raw| | | |] eqn:E; try discriminate.
  intros [= <-]. cbn [results_container productos_length].
  destruct (isLoading st); [discriminate|].
  destruct (error_truthy (error st)); [discriminate|]. cbn [negb andb].
  intros [= <-]. exists raw. repeat split.
Qed.

Lemma Part000_container lower (st : AppState) sec rc :
  Part000Render.results_section lower st = Some sec ->
  results_container sec = Some rc ->
  exists raw,
    productos st = Array raw
    /\ isLoading st = false /\ error_truthy (error st) = false
    /\ let out := Array_sort (by_key AppTsx.price)
                    (List.filter (Part000.filter_callback lower st) raw) in
       rc = mkResultsContainer
              (N_to_string (N.of_nat (length out))
                 ++ js " productos encontrados")
              ((if (length out =? 0)%nat && (0 <? length raw)%nat
                then [NoResultsNotice] else [])
               ++ (if (length raw =? 0)%nat
                      && negb (str_truthy (String_trim (keyword st)))
                   then [StartNotice] else []))
              (map product_card out).
Proof.
  unfold Part000Render.results_section, Part000.getFilteredProducts.
  destruct (productos st) as [| |raw| | | |] eqn:E; try discriminate.
  intros [= <-]. cbn [results_container productos_length].
  destruct (isLoading st); [discriminate|].
  destruct (error_truthy (error st)); [discriminate|]. cbn [negb andb].
  intros [= <-]. exists raw. repeat split.
Qed.

Lemma card_regular_price p r :
  price_regular (product_card p) = Some r ->
  r = Precio_Regular p /\ r <> No_disponible.
Proof.
  unfold product_card. cbn [price_regular].
  destruct (str_eqb (Precio_Regular p) (js "No disponible")) eqn:E;
    cbn [negb]; [discriminate|].
  intros [= <-]. split; [reflexivity|]. apply str_eqb_neq, E.
Qed.

Lemma cards_of_sorted_filter (cmp : Producto -> Producto -> number)
    (f : Producto -> bool) raw card :
  In card (map product_card (Array_sort cmp (List.filter f raw))) ->
  exists p, card = product_card p /\ In p raw /\ f p = true.
Proof.
  intros H. apply in_map_iff in H. destruct H as (p & <- & Hp).
  apply In_sorted_filter in Hp. exists p. tauto.
Qed.

(** X19. In the results container of either component the header counts
    the cards of the grid; a card never shows the sentinel [No disponible]
    as a regular price; and with [offersOnly] every card shows a regular
    price. *)
Theorem cards_and_regular_prices lower (st : AppState) sec rc :
  AppTsxRender.results_section lower st = Some sec
  \/ Part000Render.results_section lower st = Some sec ->
  results_container sec = Some rc ->
  header_text rc
  = N_to_string (N.of_nat (length (products_grid rc)))
      ++ js " productos encontrados"
  /\ (forall card r,
        In card (products_grid rc) -> price_regular card = Some r ->
        r <> No_disponible)
  /\ (offersFilter st = true ->
      forall card, In card (products_grid rc) -> price_regular card <> None).
Proof.
  intros [H | H] Hrc.
  - destruct (AppTsx_container lower st sec rc H Hrc) as (raw & _ & _ & _ & ->).
    cbn [header_text products_grid]. rewrite length_map.
    split; [reflexivity|]. split.
    + intros card r Hc Hr. apply cards_of_sorted_filter in Hc.
      destruct Hc as (p & -> & _). apply (card_regular_price p r Hr).
    + intros Ho card Hc. apply cards_of_sorted_filter in Hc.
      destruct Hc as (p & -> & _ & Hf).
      apply AppTsx_callback_passes in Hf. destruct Hf as (_ & _ & _ & Hf).
      specialize (Hf Ho). unfold product_card. cbn [price_regular].
      apply str_eqb_neq in Hf. unfold No_disponible in Hf. rewrite Hf.
      discriminate.
  - destruct (Part000_container lower st sec rc H Hrc)
      as (raw & _ & _ & _ & ->).
    cbn [header_text products_grid]. rewrite length_map.
    split; [reflexivity|]. split.
    + intros card r Hc Hr. apply cards_of_sorted_filter in Hc.
      destruct Hc as (p & -> & _). apply (card_regular_price p r Hr).
    + intros Ho card Hc. apply cards_of_sorted_filter in Hc.
      destruct Hc as (p & -> & _ & Hf).
      apply Part000_callback_passes in Hf. destruct Hf as (_ & _ & _ & Hf).
      specialize (Hf Ho). unfold product_card. cbn [price_regular].
      apply str_eqb_neq in Hf. unfold No_disponible in Hf. rewrite Hf.
      discriminate.
Qed.

Lemma cards_and_regular_prices_witness :
  let st := setOffersFilter true
              (setProductos
                 (Array [product "Dove" "S/ 15" "S/ 20" "Inkafarma";
                         product "Nivea" "S/ 8" "No disponible" "Mifarma"])
                 initial_state) in
  exists sec rc,
    Part000Render.results_section toLowerCase_ascii st = Some sec
    /\ results_container sec = Some rc
    /\ forall card, In card (products_grid rc) -> price_regular card <> None.
Proof.
  intros st. eexists _, _.
  assert (H1 : Part000Render.results_section toLowerCase_ascii st
               = Some (mkResultsSection false None
                    (Some (mkResultsContainer
                       (js "1 productos encontrados") []
                       [product_card
                          (product "Dove" "S/ 15" "S/ 20" "Inkafarma")]))))
    by (vm_compute; reflexivity).
  split; [exact H1|]. split; [reflexivity|].
  exact (proj2 (proj2 (cards_and_regular_prices toLowerCase_ascii st _ _
                         (or_intror H1) eq_refl)) eq_refl).
Defined.

Lemma NoDup_map_filter {A B} (g : A -> B) (f : A -> bool) l :
  List.NoDup (map g l) -> List.NoDup (map g (List.filter f l)).
Proof.
  induction l as [|x l IH]; cbn [map List.filter]; [auto|].
  intros H. apply List.NoDup_cons_iff in H. destruct H as (Hx & H).
  destruct (f x); [|auto]. cbn [map]. apply List.NoDup_cons_iff.
  split; [|auto]. intros Hin. apply Hx.
  apply in_map_iff in Hin. destruct Hin as (y & Hy & Hin).
  apply filter_In in Hin. apply in_map_iff. exists y. tauto.
Qed.

Lemma keys_of_sorted_filter (cmp : Producto -> Producto -> number)
    (f : Producto -> bool) raw :
  List.NoDup (map Enlace raw) ->
  List.NoDup
    (map card_key (map product_card (Array_sort cmp (List.filter f raw)))).
Proof.
  intros H. rewrite map_map. cbn [card_key product_card].
  eapply Permutation_NoDup;
    [symmetry; apply Permutation_map, Array_sort_perm|].
  apply NoDup_map_filter, H.
Qed.

(** X20. The key of a card is the link of its product: when the links of
    the raw list are distinct, the keys of the cards of the grid are
    distinct. *)
Theorem card_keys_distinct lower (st : AppState) raw sec rc :
  productos st = Array raw ->
  List.NoDup (map Enlace raw) ->
  AppTsxRender.results_section lower st = Some sec
  \/ Part000Render.results_section lower st = Some sec ->
  results_container sec = Some rc ->
  List.NoDup (map card_key (products_grid rc)).
Proof.
  intros Hraw Hnd [H | H] Hrc.
  - destruct (AppTsx_container lower st sec rc H Hrc)
      as (raw' & Hraw' & _ & _ & ->).
    rewrite Hraw in Hraw'. injection Hraw' as <-.
    cbn [products_grid]. apply keys_of_sorted_filter, Hnd.
  - destruct (Part000_container lower st sec rc H Hrc)
      as (raw' & Hraw' & _ & _ & ->).
    rewrite Hraw in Hraw'. injection Hraw' as <-.
    cbn [products_grid]. apply keys_of_sorted_filter, Hnd.
Qed.

Lemma card_keys_distinct_witness :
  let raw := [mkProducto (js "B") (js "S/ 20") (js "S/ 25") []
                (js "https://b") (js "Mifarma");
              mkProducto (js "A") (js "S/ 10") (js "No disponible") []
                (js "https://a") (js "Inkafarma")] in
  let st := setProductos (Array raw) initial_state in
  List.NoDup (map Enlace raw)
  /\ exists sec rc,
       AppTsxRender.results_section toLowerCase_ascii st = Some sec
       /\ results_container sec = Some rc
       /\ List.NoDup (map card_key (products_grid rc)).
Proof.
  intros raw st.
  assert (Hnd : List.NoDup (map Enlace raw)).
  { apply List.NoDup_cons; [intros [H | []]; discriminate H|].
    apply List.NoDup_cons; [intros [] | apply List.NoDup_nil]. }
  split; [exact Hnd|].
  assert (H1 : exists sec rc,
             AppTsxRender.results_section toLowerCase_ascii st = Some sec
             /\ results_container sec = Some rc).
  { eexists _, _. split; [vm_compute; reflexivity | reflexivity]. }
  destruct H1 as (sec & rc & H1 & H2).
  exists sec, rc. split; [exact H1|]. split; [exact H2|].
  exact (card_keys_distinct toLowerCase_ascii st raw sec rc eq_refl Hnd
           (or_introl H1) H2).
Defined.

Lemma sorted_filter_length_0 (cmp : Producto -> Producto -> number)
    (f : Producto -> bool) raw :
  (length (Array_sort cmp (List.filter f raw)) =? 0)%nat = true
  <-> forall p, In p raw -> f p = false.
Proof.
  rewrite Nat.eqb_eq, (Permutation_length (Array_sort_perm cmp _)). split.
  - intros H p Hp. destruct (f p) eqn:E; [|reflexivity].
    assert (Hin : In p (List.filter f raw)) by (apply filter_In; auto).
    destruct (List.filter f raw); [destruct Hin | discriminate H].
  - intros H. destruct (List.filter f raw) as [|p l] eqn:E; [reflexivity|].
    assert (Hin : In p (List.filter f raw)) by (rewrite E; left; reflexivity).
    apply filter_In in Hin. destruct Hin as (Hin & Hf).
    rewrite (H p Hin) in Hf. discriminate Hf.
Qed.

Lemma length_pos_iff {A} (l : list A) : (0 <? length l)%nat = true <-> l <> [].
Proof. destruct l; cbn; split; congruence. Qed.

Lemma length_0_iff {A} (l : list A) : (length l =? 0)%nat = true <-> l = [].
Proof. destruct l; cbn; split; congruence. Qed.

(** X21. In the results container, the notice that no product matches the
    filters is shown exactly when the raw list is not empty and no product
    of it passes the filter; in the second component the notice that asks
    for a search term is shown exactly when the raw list is empty and the
    keyword is blank, so the two notices are never shown together. *)
Theorem notices_of_results lower (st : AppState) raw sec rc :
  productos st = Array raw ->
  results_container sec = Some rc ->
  (AppTsxRender.results_section lower st = Some sec ->
   (In NoResultsNotice (notices rc)
    <-> raw <> []
        /\ forall p, In p raw -> AppTsx.filter_callback lower st p = false)
   /\ ~ In StartNotice (notices rc))
  /\ (Part000Render.results_section lower st = Some sec ->
      (In NoResultsNotice (notices rc)
       <-> raw <> []
           /\ forall p, In p raw ->
                Part000.filter_callback lower st p = false)
      /\ (In StartNotice (notices rc)
          <-> raw = [] /\ forallb is_space (keyword st) = true)
      /\ ~ (In NoResultsNotice (notices rc) /\ In StartNotice (notices rc))).
Proof.
  intros Hraw Hrc. split; intros H.
  - destruct (AppTsx_container lower st sec rc H Hrc)
      as (raw' & Hraw' & _ & _ & ->).
    rewrite Hraw in Hraw'. injection Hraw' as <-. cbn [notices].
    pose proof (sorted_filter_length_0 (by_key AppTsx.price)
                  (AppTsx.filter_callback lower st) raw) as H0.
    pose proof (length_pos_iff raw) as Hp.
    set (a := (length (Array_sort (by_key AppTsx.price)
                 (List.filter (AppTsx.filter_callback lower st) raw))
               =? 0)%nat) in *.
    set (b := (0 <? length raw)%nat) in *.
    assert (N1 : In NoResultsNotice
                   (if a && b then [NoResultsNotice] else [])
                 <-> a = true /\ b = true).
    { destruct a, b; cbn; split; try tauto;
        try (intros (? & ?); discriminate). }
    assert (N2 : ~ In StartNotice (if a && b then [NoResultsNotice] else [])).
    { destruct a, b; cbn; intros [[=] | []] || intros []. }
    rewrite N1. split; [|exact N2]. rewrite H0, Hp. tauto.
  - destruct (Part000_container lower st sec rc H Hrc)
      as (raw' & Hraw' & _ & _ & ->).
    rewrite Hraw in Hraw'. injection Hraw' as <-. cbn [notices].
    pose proof (sorted_filter_length_0 (by_key AppTsx.price)
                  (Part000.filter_callback lower st) raw) as H0.
    pose proof (length_pos_iff raw) as Hp.
    pose proof (length_0_iff raw) as Hz.
    pose proof (String_trim_nil_iff (keyword st)) as Ht.
    assert (Hb : negb (str_truthy (String_trim (keyword st))) = true
                 <-> forallb is_space (keyword st) = true).
    { rewrite <- Ht. destruct (String_trim (keyword st)); cbn;
        split; congruence. }
    set (a := (length (Array_sort (by_key AppTsx.price)
                 (List.filter (Part000.filter_callback lower st) raw))
               =? 0)%nat) in *.
    set (b := (0 <? length raw)%nat) in *.
    set (z := (length raw =? 0)%nat) in *.
    set (k := negb (str_truthy (String_trim (keyword st)))) in *.
    assert (Hbz : b = true -> z = true -> False).
    { intros Hb1 Hz1. apply Hp in Hb1. apply Hz in Hz1. contradiction. }
    assert (N1 : In NoResultsNotice
                   ((if a && b then [NoResultsNotice] else [])
                    ++ (if z && k then [StartNotice] else []))
                 <-> a = true /\ b = true).
    { destruct a, b, z, k; cbn; split; try tauto;
        try (intros [[=] | []]); try (intros [[=] | [[=] | []]]);
        try (intros (? & ?); discriminate). }
    assert (N2 : In StartNotice
                   ((if a && b then [NoResultsNotice] else [])
                    ++ (if z && k then [StartNotice] else []))
                 <-> z = true /\ k = true).
    { destruct a, b, z, k; cbn; split; try tauto;
        try (intros [[=] | []]); try (intros [[=] | [[=] | []]]);
        try (intros (? & ?); discriminate). }
    rewrite N1, N2. split; [|split].
    + rewrite H0, Hp. tauto.
    + rewrite Hz, Hb. tauto.
    + intros ((_ & Hb1) & (Hz1 & _)). exact (Hbz Hb1 Hz1).
Qed.

Lemma notices_of_results_witness :
  let raw := [product "Dove" "S/ 15" "S/ 20" "Inkafarma"] in
  let st := setPriceFilter 10 (setProductos (Array raw) initial_state) in
  exists sec rc,
    productos st = Array raw
    /\ results_container sec = Some rc
    /\ Part000Render.results_section toLowerCase_ascii st = Some sec
    /\ In NoResultsNotice (notices rc).
Proof.
  intros raw st.
  assert (H1 : exists sec rc,
             Part000Render.results_section toLowerCase_ascii st = Some sec
             /\ results_container sec = Some rc).
  { eexists _, _. split; [vm_compute; reflexivity | reflexivity]. }
  destruct H1 as (sec & rc & H1 & H2).
  exists sec, rc. split; [reflexivity|]. split; [exact H2|].
  split; [exact H1|].
  apply (proj1 (proj2 (notices_of_results toLowerCase_ascii st raw sec rc
                         eq_refl H2) H1)).
  split; [discriminate|].
  intros p [<- | []]. vm_compute. reflexivity.
Defined.

(** ** The URL of the request *)











